(** * A shallow embedding of ilp-plugin-rddn

    Sources: [src/lib/plugin.js] (class [PluginRddn]), [src/lib/transaction.js]
    (here [src/unnamed/part_001]) and [src/lib/errors.js]
    (here [src/unnamed/part_000]).

    JavaScript strings are [String.string]; byte buffers are lists of [Z]
    in [0, 255]; the JS value [undefined] of a string-valued field is [None]
    in an [option string]; a thrown exception is [Throw] of a [JsResult]. *)

From Stdlib Require Import String Ascii List ZArith Bool Lia.
Import ListNotations.
Open Scope string_scope.
Open Scope Z_scope.

(* ------------------------------------------------------------------ *)
(** ** JavaScript values used by the plugin *)

(** Classes of the errors the code throws or inspects. *)
Inductive ErrClass :=
| EError              (* a plain [Error], e.g. a node rejection *)
| EPastSequence       (* [Errors.PastSequenceError] *)
| ETypeError
| ERangeError
| EReferenceError.

Record JsError := mkErr { e_class : ErrClass; e_message : string }.

Inductive JsResult (A : Type) :=
| Ret : A -> JsResult A
| Throw : JsError -> JsResult A.
Arguments Ret {A} _.
Arguments Throw {A} _.

Definition bind {A B} (m : JsResult A) (k : A -> JsResult B) : JsResult B :=
  match m with Ret a => k a | Throw e => Throw e end.
Notation "x <- m ;; k" := (bind m (fun x => k))
  (at level 61, m at next level, right associativity).

(** [errors.js]: [class PastSequenceError extends Error], built with no
    arguments, hence the empty message. *)
Definition PastSequenceError : JsError := mkErr EPastSequence "".

Definition is_PastSequenceError (e : JsError) : bool :=
  match e_class e with EPastSequence => true | _ => false end.

(** [v === s] for a possibly [undefined] value [v] and a string [s]. *)
Definition js_str_eq (v : option string) (s : string) : bool :=
  match v with Some x => String.eqb x s | None => false end.

(** String concatenation of a possibly [undefined] value. *)
Definition js_str (v : option string) : string :=
  match v with Some s => s | None => "undefined" end.

(* ------------------------------------------------------------------ *)
(** ** String helpers (String.prototype methods) *)

(** [s.startsWith(p)] *)
Fixpoint starts_with (p s : string) : bool :=
  match p, s with
  | EmptyString, _ => true
  | String a p', String b s' => Ascii.eqb a b && starts_with p' s'
  | String _ _, EmptyString => false
  end.

(** [s.indexOf(p) >= 0] *)
Fixpoint contains (p s : string) : bool :=
  starts_with p s ||
  match s with EmptyString => false | String _ s' => contains p s' end.

(** [s.substring(n)] / [s.slice(n)] for [n >= 0]. *)
Fixpoint drop (n : nat) (s : string) : string :=
  match n, s with
  | O, _ => s
  | S n', String _ s' => drop n' s'
  | S _, EmptyString => EmptyString
  end.

(** [s.replace(/-/g, '')] *)
Fixpoint remove_dashes (s : string) : string :=
  match s with
  | EmptyString => EmptyString
  | String c s' =>
      if Ascii.eqb c "-" then remove_dashes s' else String c (remove_dashes s')
  end.

(** [s.toLowerCase()] on ASCII text. *)
Definition lower_ascii (c : ascii) : ascii :=
  let n := nat_of_ascii c in
  if (65 <=? n)%nat && (n <=? 90)%nat then ascii_of_nat (n + 32) else c.

Fixpoint to_lower (s : string) : string :=
  match s with
  | EmptyString => EmptyString
  | String c s' => String (lower_ascii c) (to_lower s')
  end.

(* ------------------------------------------------------------------ *)
(** ** Hex and base64url codecs of the libraries the plugin calls *)

(** Value of a hex digit, both cases, as Node's hex decoder reads it. *)
Definition hexval (c : ascii) : option Z :=
  let n := Z.of_nat (nat_of_ascii c) in
  if (48 <=? n) && (n <=? 57) then Some (n - 48)
  else if (97 <=? n) && (n <=? 102) then Some (n - 87)
  else if (65 <=? n) && (n <=? 70) then Some (n - 55)
  else None.

(** [Buffer.from(s, 'hex')]: decodes digit pairs and stops at the first
    pair that is not two hex digits; a trailing odd digit is dropped. *)
Fixpoint hex_to_bytes (s : string) : list Z :=
  match s with
  | String a (String b s') =>
      match hexval a, hexval b with
      | Some x, Some y => (16 * x + y) :: hex_to_bytes s'
      | _, _ => []
      end
  | _ => []
  end.

(** Lower-case hex digit of a value in [0, 15]. *)
Definition hex_digit (v : Z) : ascii :=
  if v <? 10 then ascii_of_nat (Z.to_nat (48 + v))
  else ascii_of_nat (Z.to_nat (87 + v)).

(** uuid-parse's [_byteToHex] table: two lower-case digits per byte. *)
Definition byte_to_hex (b : Z) : string :=
  String (hex_digit (b / 16)) (String (hex_digit (b mod 16)) EmptyString).

(** [bth[buf[i]]] in uuid-parse: [undefined] past the end of [buf]. *)
Definition bth_at (buf : list Z) (i : nat) : string :=
  match nth_error buf i with
  | Some b => byte_to_hex b
  | None => "undefined"
  end.

(** [uuidParse.unparse(buf)]: sixteen byte lookups with dashes after the
    4th, 6th, 8th and 10th byte, summed left to right with JS [+].  On an
    empty buffer the leading sum is [undefined + undefined], which is
    [NaN], and it stays the number [NaN] up to the first ['-']. *)
Definition unparse (buf : list Z) : string :=
  match buf with
  | [] => "NaN"
  | _ => bth_at buf 0 ++ bth_at buf 1 ++ bth_at buf 2 ++ bth_at buf 3
  end ++ "-" ++
  bth_at buf 4 ++ bth_at buf 5 ++ "-" ++
  bth_at buf 6 ++ bth_at buf 7 ++ "-" ++
  bth_at buf 8 ++ bth_at buf 9 ++ "-" ++
  bth_at buf 10 ++ bth_at buf 11 ++ bth_at buf 12 ++ bth_at buf 13 ++
  bth_at buf 14 ++ bth_at buf 15.

(** The hex text of a byte sequence, two lower-case digits per byte. *)
Definition bytes_hex (bs : list Z) : string :=
  fold_right (fun b acc => byte_to_hex b ++ acc) EmptyString bs.

(** The base64url alphabet. *)
Definition b64_char (v : Z) : ascii :=
  if v <? 26 then ascii_of_nat (Z.to_nat (65 + v))
  else if v <? 52 then ascii_of_nat (Z.to_nat (71 + v))
  else if v <? 62 then ascii_of_nat (Z.to_nat (v - 4))
  else if v =? 62 then "-"%char else "_"%char.

(** [base64url(buffer)]: base64 with [-] and [_], padding removed. *)
Fixpoint base64url (bs : list Z) : string :=
  match bs with
  | a :: b :: c :: rest =>
      let n := a * 65536 + b * 256 + c in
      String (b64_char (n / 262144))
        (String (b64_char ((n / 4096) mod 64))
          (String (b64_char ((n / 64) mod 64))
            (String (b64_char (n mod 64)) (base64url rest))))
  | [a; b] =>
      let n := a * 65536 + b * 256 in
      String (b64_char (n / 262144))
        (String (b64_char ((n / 4096) mod 64))
          (String (b64_char ((n / 64) mod 64)) EmptyString))
  | [a] =>
      let n := a * 65536 in
      String (b64_char (n / 262144))
        (String (b64_char ((n / 4096) mod 64)) EmptyString)
  | [] => EmptyString
  end.

(* ------------------------------------------------------------------ *)
(** ** Identifier codec *)

(** [transaction.js]: [const uuidToHex = (uuid) => '0x' + uuid.replace(/-/g, '')] *)
Definition uuidToHex (uuid : string) : string := "0x" ++ remove_dashes uuid.

(** The inverse used by [_getRddnTransfer] and [getRequests]:
    [uuidParse.unparse(Buffer.from(_id.substring(2), 'hex'))]. *)
Definition hexToUuid (_id : string) : string := unparse (hex_to_bytes (drop 2 _id)).

(** Every character satisfies [p]. *)
Fixpoint all_chars (p : ascii -> bool) (s : string) : bool :=
  match s with EmptyString => true | String c s' => p c && all_chars p s' end.

(** A well-formed UUID (8-4-4-4-12 hex digits); [hexp] says which
    characters count as hex digits. *)
Definition uuid_dash_pos (i : nat) : bool :=
  (i =? 8)%nat || (i =? 13)%nat || (i =? 18)%nat || (i =? 23)%nat.

Fixpoint uuid_chars_ok (hexp : ascii -> bool) (i : nat) (s : string) : bool :=
  match s with
  | EmptyString => (i =? 36)%nat
  | String c s' =>
      (if uuid_dash_pos i then Ascii.eqb c "-" else hexp c) &&
      uuid_chars_ok hexp (S i) s'
  end.

Definition is_hex_digit (c : ascii) : bool :=
  match hexval c with Some _ => true | None => false end.

Definition lower_hex_digits : list ascii :=
  ["0";"1";"2";"3";"4";"5";"6";"7";"8";"9";"a";"b";"c";"d";"e";"f"]%char.

Definition is_lower_hex_digit (c : ascii) : bool :=
  existsb (Ascii.eqb c) lower_hex_digits.

(** RFC 4122 UUID text: hex digits of either case. *)
Definition is_uuid (u : string) : bool := uuid_chars_ok is_hex_digit 0 u.

(** A UUID in its canonical lower-case form. *)
Definition is_lower_uuid (u : string) : bool := uuid_chars_ok is_lower_hex_digit 0 u.

(* ------------------------------------------------------------------ *)
(** ** [new Date(ms).toISOString()] *)

(** Decimal digits of [n >= 0], left-padded with zeros to [width]. *)
Fixpoint digits_rev (fuel : nat) (n : Z) : list ascii :=
  match fuel with
  | O => []
  | S f => if n <=? 0 then [] else hex_digit (n mod 10) :: digits_rev f (n / 10)
  end.

Definition pad_dec (width : nat) (n : Z) : string :=
  let ds := rev (digits_rev 40 n) in
  string_of_list_ascii (repeat "0"%char (width - length ds) ++ ds).

(** Civil date of a day count since 1970-01-01 (proleptic Gregorian). *)
Definition civil_from_days (z0 : Z) : Z * Z * Z :=
  let z := z0 + 719468 in
  let era := z / 146097 in
  let doe := z - era * 146097 in
  let yoe := (doe - doe / 1460 + doe / 36524 - doe / 146096) / 365 in
  let y := yoe + era * 400 in
  let doy := doe - (365 * yoe + yoe / 4 - yoe / 100) in
  let mp := (5 * doy + 2) / 153 in
  let d := doy - (153 * mp + 2) / 5 + 1 in
  let m := if mp <? 10 then mp + 3 else mp - 9 in
  ((if m <=? 2 then y + 1 else y), m, d).

Definition iso_year (y : Z) : string :=
  if (0 <=? y) && (y <=? 9999) then pad_dec 4 y
  else if y <? 0 then "-" ++ pad_dec 6 (- y) else "+" ++ pad_dec 6 y.

(** [Date.prototype.toISOString]: a RangeError outside the time-value
    range [|ms| <= 8.64e15]. *)
Definition toISOString (ms : Z) : JsResult string :=
  if Z.abs ms >? 8640000000000000 then Throw (mkErr ERangeError "Invalid time value")
  else
    let days := ms / 86400000 in
    let r := ms mod 86400000 in
    let '(y, mo, d) := civil_from_days days in
    Ret (iso_year y ++ "-" ++ pad_dec 2 mo ++ "-" ++ pad_dec 2 d ++ "T" ++
         pad_dec 2 (r / 3600000) ++ ":" ++ pad_dec 2 ((r / 60000) mod 60) ++ ":" ++
         pad_dec 2 ((r / 1000) mod 60) ++ "." ++ pad_dec 3 (r mod 1000) ++ "Z").

(* ------------------------------------------------------------------ *)
(** ** The escrow store and the Transfer projection *)

(** The tuple returned by [contract.methods.getTransfer(_id).call()]:
    [0] from, [1] to, [2] amount, [3] condition (hex), [4] expiry
    (seconds), [5] state code, [6] direction code. *)
Record RawTransfer := mkRaw {
  r_from : string; r_to : string; r_amount : Z; r_condition : string;
  r_expires : Z; r_state : Z; r_direction : Z }.

(** The read methods of the escrow-store contract. *)
Record Contract := mkContract {
  c_getTransfer : string -> JsResult RawTransfer;
  c_getMoneyIdByTransferId : string -> JsResult string;
  c_getIlpPacket : string -> JsResult string }.

(** [transfer.custom]: the empty string of the not-found record, or
    [{ moneyId, direction }]. *)
Inductive Custom :=
| CustomEmpty
| CustomObj (moneyId : string) (direction : option string).

(** The Transfer object; [ledger] and [direction] are the properties the
    plugin adds later ([None] while absent), [state] may be [undefined]. *)
Record Transfer := mkTransfer {
  t_id : string; t_from : string; t_to : string; t_amount : Z;
  t_ilp : string; t_executionCondition : string; t_expiresAt : string;
  t_custom : Custom; t_state : option string;
  t_ledger : option string; t_direction : option string }.

(** [const stateToName = (state) => (['prepare', 'fulfill', 'abort'])[state]] *)
Definition stateToName (state : Z) : option string :=
  match state with 0 => Some "prepare" | 1 => Some "fulfill" | 2 => Some "abort" | _ => None end.

(** [const directionToName = (direction) => (['deposit', 'withdraw'])[direction]] *)
Definition directionToName (direction : Z) : option string :=
  match direction with 0 => Some "deposit" | 1 => Some "withdraw" | _ => None end.

(** [const hexToAccount = (prefix, account) => prefix + account] *)
Definition hexToAccount (prefix account : string) : string := prefix ++ account.

Definition zero_address : string := "0x0000000000000000000000000000000000000000".

(** [_getRddnTransfer(_id)] with [this._prefix = prefix]. *)
Definition _getRddnTransfer (contract : Contract) (prefix _id : string) : JsResult Transfer :=
  transfer <- c_getTransfer contract _id ;;
  if String.eqb (r_from transfer) zero_address then
    Ret {| t_id := hexToUuid _id; t_from := ""; t_to := ""; t_amount := 0;
           t_ilp := ""; t_executionCondition := ""; t_expiresAt := "";
           t_custom := CustomEmpty; t_state := Some "";
           t_ledger := None; t_direction := None |}
  else
    moneyId <- c_getMoneyIdByTransferId contract _id ;;
    packet <- c_getIlpPacket contract _id ;;
    let ilp := base64url (hex_to_bytes (drop 2 packet)) in
    let unparsedId := hexToUuid _id in
    let custom := CustomObj moneyId (directionToName (r_direction transfer)) in
    expiresAt <- toISOString (r_expires transfer * 1000) ;;
    Ret {| t_id := unparsedId;
           t_from := hexToAccount prefix (r_from transfer);
           t_to := hexToAccount prefix (r_to transfer);
           t_amount := r_amount transfer;
           t_ilp := ilp;
           t_executionCondition := base64url (hex_to_bytes (drop 2 (r_condition transfer)));
           t_expiresAt := expiresAt;
           t_custom := custom;
           t_state := stateToName (r_state transfer);
           t_ledger := None; t_direction := None |}.

(* ------------------------------------------------------------------ *)
(** ** The plugin object *)

(** Fields of a [PluginRddn] instance; a node handle ([web3], [extWeb3])
    or the contract binding is an opaque number, [None] for [null] or
    [undefined]. [outgoingList] and [incomingList] are read by
    [forceEmitPrepare] but never assigned by the class. *)
Record Plugin := mkPlugin {
  p_prefix : string;
  p_address : string;
  p_primaryProvider : string;
  p_secondaryProvider : string;
  p_provider : string;
  p_web3 : option nat;
  p_extWeb3 : option nat;
  p_contract : option Contract;
  p_outgoingList : option (list string);
  p_incomingList : option (list string) }.

(** [getAccount()] *)
Definition getAccount (pl : Plugin) : string := p_prefix pl ++ p_address pl.

(** Arguments passed to listeners by [emit]. *)
Inductive Arg :=
| ATransfer (t : Transfer)
| AValue (v : option string).

Record Event := mkEvent { ev_name : string; ev_args : list Arg }.

(** [transfer.ledger = prefix] *)
Definition set_ledger (t : Transfer) (prefix : string) : Transfer :=
  {| t_id := t_id t; t_from := t_from t; t_to := t_to t; t_amount := t_amount t;
     t_ilp := t_ilp t; t_executionCondition := t_executionCondition t;
     t_expiresAt := t_expiresAt t; t_custom := t_custom t; t_state := t_state t;
     t_ledger := Some prefix; t_direction := t_direction t |}.

(** [_processUpdate(transfer, fulfillment)]: the events it emits, in order. *)
Definition _processUpdate (pl : Plugin) (transfer : Transfer) (fulfillment : option string)
  : list Event :=
  let direction := if String.eqb (t_from transfer) (getAccount pl) then Some "outgoing" else None in
  let direction := if String.eqb (t_to transfer) (getAccount pl) then Some "incoming" else direction in
  match direction with
  | None =>
      if js_str_eq (t_state transfer) "fulfill" then
        [mkEvent "event_fulfill" [ATransfer transfer; AValue fulfillment]]
      else
        [mkEvent ("event_" ++ js_str (t_state transfer)) [ATransfer transfer]]
  | Some dir =>
      let transfer := set_ledger transfer (p_prefix pl) in
      if js_str_eq (t_state transfer) "fulfill" then
        [mkEvent (dir ++ "_" ++ js_str (t_state transfer))
                 [ATransfer transfer; AValue fulfillment; AValue (Some (t_ilp transfer))]]
      else
        [mkEvent (dir ++ "_" ++ js_str (t_state transfer)) [ATransfer transfer]]
  end.

(** Notifications of the escrow store that reach a lifecycle handler:
    [Fulfill] carries the ledger id and the fulfillment (hex), [Update]
    the ledger id. *)
Inductive Notification :=
| NFulfill (uuid fulfillment : string)
| NUpdate (uuid : string).

(** The [.on('data', ...)] handlers registered by [connect()]: resolve the
    Transfer, then dispatch. A failed resolution rejects the handler's
    promise and emits nothing. *)
Definition on_notification (pl : Plugin) (contract : Contract) (n : Notification)
  : JsResult (list Event) :=
  match n with
  | NFulfill uuid fulfillment =>
      transfer <- _getRddnTransfer contract (p_prefix pl) uuid ;;
      Ret (_processUpdate pl transfer
             (Some (base64url (hex_to_bytes (drop 2 fulfillment)))))
  | NUpdate uuid =>
      transfer <- _getRddnTransfer contract (p_prefix pl) uuid ;;
      Ret (_processUpdate pl transfer None)
  end.

(** [getTransfer(uuid)] *)
Definition getTransfer (pl : Plugin) (contract : Contract) (uuid : string) : JsResult Transfer :=
  _getRddnTransfer contract (p_prefix pl) (uuidToHex uuid).

(** The lodash binding [_] in the scope of [plugin.js]: the module does
    not require lodash, so [_] is unbound there. *)
Definition lodash_includes_in_scope : option (option (list string) -> string -> bool) := None.

(** [_.includes(list, x)]: evaluating the unbound [_] throws before the
    arguments are evaluated. *)
Definition lodash_includes (l : option (list string)) (x : string) : JsResult bool :=
  match lodash_includes_in_scope with
  | Some f => Ret (f l x)
  | None => Throw (mkErr EReferenceError "_ is not defined")
  end.

(** [a || b] with [b] evaluated only when [a] is false. *)
Definition js_or (a : bool) (b : unit -> JsResult bool) : JsResult bool :=
  if a then Ret true else b tt.

Definition set_direction (t : Transfer) (d : string) : Transfer :=
  {| t_id := t_id t; t_from := t_from t; t_to := t_to t; t_amount := t_amount t;
     t_ilp := t_ilp t; t_executionCondition := t_executionCondition t;
     t_expiresAt := t_expiresAt t; t_custom := t_custom t; t_state := t_state t;
     t_ledger := t_ledger t; t_direction := Some d |}.

(** [forceEmitPrepare(transferId)]: the result and the events emitted. *)
Definition forceEmitPrepare (pl : Plugin) (contract : Contract) (transferId : string)
  : JsResult bool * list Event :=
  match
    transfer <- getTransfer pl contract transferId ;;
    out <- js_or (String.eqb (t_from transfer) (getAccount pl))
             (fun _ => lodash_includes (p_outgoingList pl) (to_lower (t_from transfer))) ;;
    inc <- js_or (String.eqb (t_to transfer) (getAccount pl))
             (fun _ => lodash_includes (p_incomingList pl) (to_lower (t_to transfer))) ;;
    let direction := if inc then Some "incoming" else if out then Some "outgoing" else None in
    Ret (transfer, direction)
  with
  | Throw e => (Throw e, [])
  | Ret (transfer, Some direction) =>
      (Ret true, [mkEvent (direction ++ "_prepare") [ATransfer (set_direction transfer direction)]])
  | Ret (_, None) => (Ret false, [])
  end.


(* ------------------------------------------------------------------ *)
(** ** Transaction submission *)

Inductive TxOp := OpCreateTransfer | OpFulfillTransfer | OpAbortTransfer.

(** What the node answers to the awaited calls of one [Transaction.*]
    function (pending-nonce lookup and [sendSignedTransaction]). *)
Inductive NodeOutcome :=
| NodeAccept
| NodeReject (message : string).

(** Observable steps, stamped with the clock (ms). *)
Inductive Action :=
| ATxCall (op : TxOp) (web3 : option nat) (at_ms : Z)   (* a [Transaction.*] call *)
| ANetWrite (op : TxOp) (web3 : nat) (at_ms : Z)        (* the signed request is sent *)
| ATimerStart (at_ms duration : Z).                     (* [this._sleep(duration)] *)

(** [this.web3 || this.extWeb3] *)
Definition handle (pl : Plugin) : option nat :=
  match p_web3 pl with Some h => Some h | None => p_extWeb3 pl end.

(** [Transaction.rejectIncomingTransfer], [fulfillCondition] and
    [sendTransfer] at time [t]; the node answers [o] after [d] ms. With no
    contract bound, [contract.methods] throws; with a [null] handle,
    [web3.eth] (or [web3.utils]) throws; neither reaches the network. *)
Definition Transaction_call (op : TxOp) (pl : Plugin) (t : Z) (resp : Z * NodeOutcome)
  : list Action * JsResult unit * Z :=
  let '(d, o) := resp in
  match p_contract pl with
  | None => ([], Throw (mkErr ETypeError "Cannot read properties of undefined (reading 'methods')"), t)
  | Some _ =>
      match handle pl with
      | None =>
          let field := match op with OpCreateTransfer => "utils" | _ => "eth" end in
          ([], Throw (mkErr ETypeError ("Cannot read properties of null (reading '" ++ field ++ "')")), t)
      | Some h =>
          ([ANetWrite op h t],
           match o with NodeAccept => Ret tt | NodeReject m => Throw (mkErr EError m) end,
           t + d)
      end
  end.

(** The catch blocks of [_rejectIncomingTransfer] and [_fulfillCondition]. *)
Definition classify_reject_fulfill (error : JsError) : JsError :=
  let message := e_message error in
  if contains "replacement transaction underpriced" message then PastSequenceError
  else if contains "known transaction" message then PastSequenceError
  else error.

(** The catch block of [sendTransfer]. *)
Definition classify_send (error : JsError) : JsError :=
  let message := e_message error in
  if contains "replacement transaction underpriced" message then PastSequenceError
  else error.

Definition map_error (f : JsError -> JsError) (r : JsResult unit) : JsResult unit :=
  match r with Ret u => Ret u | Throw e => Throw (f e) end.

(** [_rejectIncomingTransfer(transferId)] *)
Definition _rejectIncomingTransfer (pl : Plugin) (t : Z) (resp : Z * NodeOutcome)
  : list Action * JsResult unit * Z :=
  let '(acts, r, t') := Transaction_call OpAbortTransfer pl t resp in
  (ATxCall OpAbortTransfer (handle pl) t :: acts, map_error classify_reject_fulfill r, t').

(** [_fulfillCondition(transferId, fulfillment)] *)
Definition _fulfillCondition (pl : Plugin) (t : Z) (resp : Z * NodeOutcome)
  : list Action * JsResult unit * Z :=
  let '(acts, r, t') := Transaction_call OpFulfillTransfer pl t resp in
  (ATxCall OpFulfillTransfer (handle pl) t :: acts, map_error classify_reject_fulfill r, t').

(** JS truthiness of a handle field. *)
Definition truthy {A} (v : option A) : bool := match v with Some _ => true | None => false end.

(** [sendTransfer(_transfer)] *)
Definition sendTransfer (pl : Plugin) (t : Z) (resp : Z * NodeOutcome)
  : list Action * JsResult unit * Z :=
  if negb (truthy (p_web3 pl)) && negb (truthy (p_extWeb3 pl)) then
    ([], Throw (mkErr EError "must be connected"), t)
  else
    let '(acts, r, t') := Transaction_call OpCreateTransfer pl t resp in
    (ATxCall OpCreateTransfer (handle pl) t :: acts, map_error classify_send r, t').

(** Final state of a retrying call once the given node answers are used
    up: settled, rejected, or still awaiting the next answer. *)
Inductive Outcome :=
| Done
| Failed (e : JsError)
| Pending.

Section Retry.
(** One attempt: [_fulfillCondition] or [_rejectIncomingTransfer]. *)
Variable attempt : Plugin -> Z -> Z * NodeOutcome -> list Action * JsResult unit * Z.

(** The body shared by [fulfillCondition] and [rejectIncomingTransfer]:
    on a [PastSequenceError], [this._sleep(500)] is called without
    [await], then the method calls itself with the same arguments. *)
Fixpoint retry_loop (pl : Plugin) (t : Z) (resps : list (Z * NodeOutcome))
  : list Action * Outcome :=
  match resps with
  | [] => ([], Pending)
  | resp :: resps' =>
      let '(acts, r, t') := attempt pl t resp in
      match r with
      | Ret _ => (acts, Done)
      | Throw error =>
          if is_PastSequenceError error then
            let '(acts', o) := retry_loop pl t' resps' in
            ((acts ++ ATimerStart t' 500 :: acts')%list, o)
          else (acts, Failed error)
      end
  end.
End Retry.

(** [fulfillCondition(transferId, fulfillment, ilp)] *)
Definition fulfillCondition (pl : Plugin) (t : Z) (resps : list (Z * NodeOutcome))
  : list Action * Outcome := retry_loop _fulfillCondition pl t resps.

(** [rejectIncomingTransfer(transferId)] *)
Definition rejectIncomingTransfer (pl : Plugin) (t : Z) (resps : list (Z * NodeOutcome))
  : list Action * Outcome := retry_loop _rejectIncomingTransfer pl t resps.

(* ------------------------------------------------------------------ *)
(** ** The health probe *)

(** [setInterval(..., 5 * 1000)] *)
Definition heartbeat_interval : Z := 5 * 1000.

Inductive ProbeAction :=
| PCloseLink (web3 : nat)              (* [this.web3.currentProvider.disconnect()] *)
| PCreateProvider (endpoint : string). (* [createWebsocketProvider(this.provider)], whose
                                          ['connect'] event calls [this.connect()] *)

(** [if (this.provider === this._primaryProvider) ... else ...] *)
Definition flip_provider (pl : Plugin) : string :=
  if String.eqb (p_provider pl) (p_primaryProvider pl) then p_secondaryProvider pl
  else p_primaryProvider pl.

Definition with_link (pl : Plugin) (web3 : option nat) (provider : string) : Plugin :=
  {| p_prefix := p_prefix pl; p_address := p_address pl;
     p_primaryProvider := p_primaryProvider pl; p_secondaryProvider := p_secondaryProvider pl;
     p_provider := provider; p_web3 := web3; p_extWeb3 := p_extWeb3 pl;
     p_contract := p_contract pl; p_outgoingList := p_outgoingList pl;
     p_incomingList := p_incomingList pl |}.

(** One run of the interval callback of [_heartbeat]; [listening] is
    whether [this.web3.eth.net.isListening()] resolves. *)
Definition heartbeat_tick (pl : Plugin) (listening : bool) : Plugin * list ProbeAction :=
  (* Reconnect *)
  let '(pl, acts) :=
    match p_web3 pl with
    | None => let provider := flip_provider pl in
              (with_link pl None provider, [PCreateProvider provider])
    | Some _ => (pl, [])
    end in
  (* Liveness check *)
  match p_web3 pl with
  | Some w =>
      if listening then (pl, acts)
      else
        let provider := flip_provider pl in
        (with_link pl None provider, (acts ++ [PCloseLink w; PCreateProvider provider])%list)
  | None => (pl, acts)
  end.

(* ------------------------------------------------------------------ *)
(** ** Sample configuration *)

Module Sample.
Definition prefix : string := "g.rddn.".
Definition self : string := "0x1111111111111111111111111111111111111111".
Definition other : string := "0x2222222222222222222222222222222222222222".
Definition uuid : string := "f55585e1-0c19-4588-832d-369cfa005640".

(** A store holding one record, whatever the id asked for. *)
Definition store (raw : RawTransfer) : Contract :=
  {| c_getTransfer := fun _ => Ret raw;
     c_getMoneyIdByTransferId := fun _ => Ret "JPY-1";
     c_getIlpPacket := fun _ => Ret "0x0102" |}.

Definition raw (from to : string) (state : Z) : RawTransfer :=
  {| r_from := from; r_to := to; r_amount := 1000;
     r_condition := "0x" ++ "00112233445566778899aabbccddeeff00112233445566778899aabbccddeeff";
     r_expires := 1539820800; r_state := state; r_direction := 0 |}.

(** Connected through an owned node handle, on the primary endpoint. *)
Definition plugin (contract : Contract) : Plugin :=
  {| p_prefix := prefix; p_address := self;
     p_primaryProvider := "ws://p1:8546"; p_secondaryProvider := "ws://p2:8546";
     p_provider := "ws://p1:8546"; p_web3 := Some 1%nat; p_extWeb3 := None;
     p_contract := Some contract; p_outgoingList := None; p_incomingList := None |}.

(** The same instance after [disconnect()]. *)
Definition unconnected (contract : Contract) : Plugin :=
  with_link (plugin contract) None "ws://p1:8546".
End Sample.

(* ------------------------------------------------------------------ *)
(** ** Dispatch as the spec states it (compared with [_processUpdate]) *)

Definition notif_id (n : Notification) : string :=
  match n with NFulfill uuid _ => uuid | NUpdate uuid => uuid end.

Definition notif_fulfillment (n : Notification) : option string :=
  match n with
  | NFulfill _ fulfillment => Some (base64url (hex_to_bytes (drop 2 fulfillment)))
  | NUpdate _ => None
  end.

(** [{dir}_{state}] carrying the Transfer stamped with the prefix, plus the
    fulfillment and the transfer's payload in the fulfill case. *)
Definition spec_directed_event (pl : Plugin) (dir : string) (t : Transfer) (f : option string)
  : Event :=
  let t' := set_ledger t (p_prefix pl) in
  if js_str_eq (t_state t) "fulfill" then
    mkEvent (dir ++ "_fulfill") [ATransfer t'; AValue f; AValue (Some (t_ilp t))]
  else mkEvent (dir ++ "_" ++ js_str (t_state t)) [ATransfer t'].

(** [event_{state}] carrying the Transfer, plus the fulfillment in the
    fulfill case. *)
Definition spec_undirected_event (t : Transfer) (f : option string) : Event :=
  if js_str_eq (t_state t) "fulfill" then mkEvent "event_fulfill" [ATransfer t; AValue f]
  else mkEvent ("event_" ++ js_str (t_state t)) [ATransfer t].

(** The spec's "the input with every ['-'] removed": the characters of
    the input that are not ['-'], in their order. *)
Definition spec_without_dashes (s : string) : string :=
  string_of_list_ascii
    (filter (fun c => negb (Ascii.eqb c "-")) (list_ascii_of_string s)).

(* ------------------------------------------------------------------ *)
(** ** Argument encodings of [transaction.js] *)

(** Node's base64 decoding table: both alphabets, [+]/[-] for 62 and
    [/]/[_] for 63. *)
Definition b64_value (c : ascii) : option Z :=
  let n := Z.of_nat (nat_of_ascii c) in
  if (65 <=? n) && (n <=? 90) then Some (n - 65)
  else if (97 <=? n) && (n <=? 122) then Some (n - 71)
  else if (48 <=? n) && (n <=? 57) then Some (n + 4)
  else if (n =? 43) || (n =? 45) then Some 62
  else if (n =? 47) || (n =? 95) then Some 63
  else None.

(** The sextets Node's decoder reads: characters outside the table are
    skipped and ['='] stops decoding. *)
Fixpoint b64_sextets (s : string) : list Z :=
  match s with
  | EmptyString => []
  | String c s' =>
      match b64_value c with
      | Some v => v :: b64_sextets s'
      | None => if Ascii.eqb c "=" then [] else b64_sextets s'
      end
  end.

(** One output byte from the sextets [hi] and [lo], as in Node's
    [base64_decode_group]: the three shapes of a group. *)
Definition b64_byte1 (hi lo : Z) : Z :=
  Z.lor (Z.shiftl (Z.land hi 63) 2) (Z.shiftr (Z.land lo 48) 4).
Definition b64_byte2 (hi lo : Z) : Z :=
  Z.land (Z.lor (Z.shiftl (Z.land hi 15) 4) (Z.shiftr (Z.land lo 60) 2)) 255.
Definition b64_byte3 (hi lo : Z) : Z :=
  Z.land (Z.lor (Z.shiftl (Z.land hi 3) 6) (Z.land lo 63)) 255.

(** Groups of four sextets give three bytes; a trailing group of three
    gives two bytes, of two gives one byte, of one gives none. *)
Fixpoint sextets_to_bytes (l : list Z) : list Z :=
  match l with
  | a :: b :: c :: d :: rest =>
      b64_byte1 a b :: b64_byte2 b c :: b64_byte3 c d :: sextets_to_bytes rest
  | [a; b; c] => [b64_byte1 a b; b64_byte2 b c]
  | [a; b] => [b64_byte1 a b]
  | _ => []
  end.

(** [Buffer.from(s, 'base64')] *)
Definition base64_decode (s : string) : list Z := sextets_to_bytes (b64_sextets s).

(** [const conditionToHex = (condition) => '0x' + Buffer.from(condition, 'base64').toString('hex')] *)
Definition conditionToHex (condition : string) : string :=
  "0x" ++ bytes_hex (base64_decode condition).

(** [const fulfillmentToHex = conditionToHex] *)
Definition fulfillmentToHex (fulfillment : string) : string := conditionToHex fulfillment.

(** [const ilpToData = (ilp) => '0x' + Buffer.from(ilp, 'base64').toString('hex')] *)
Definition ilpToData (ilp : string) : string := "0x" ++ bytes_hex (base64_decode ilp).

(** The first [n] characters of [s] if they are all hex digits
    ([[0-9A-Fa-f]{n}]), with the rest of [s]. *)
Fixpoint take_hex (n : nat) (s : string) : option (string * string) :=
  match n with
  | O => Some (EmptyString, s)
  | S n' =>
      match s with
      | String c s' =>
          if is_hex_digit c then
            match take_hex n' s' with
            | Some (h, rest) => Some (String c h, rest)
            | None => None
            end
          else None
      | EmptyString => None
      end
  end.

(** [s.match(/^(0x[0-9A-Fa-f]{40})(\.|$)/g)]: [match[0]], the whole
    match, or [null]. *)
Definition match_account_hex (s : string) : option string :=
  match s with
  | String z (String x r) =>
      if Ascii.eqb z "0" && Ascii.eqb x "x" then
        match take_hex 40 r with
        | Some (h, EmptyString) => Some ("0x" ++ h)
        | Some (h, String d _) => if Ascii.eqb d "." then Some ("0x" ++ h ++ ".") else None
        | None => None
        end
      else None
  | _ => None
  end.

(** [accountToHex(account, ledgerPrefix)] *)
Definition accountToHex (account ledgerPrefix : string) : JsResult string :=
  if negb (starts_with ledgerPrefix account) then
    Throw (mkErr EError "account does not start with ledger prefix")
  else
    match match_account_hex (drop (String.length ledgerPrefix) account) with
    | None => Throw (mkErr EError "account is not a 40-digit hex number")
    | Some m => Ret m
    end.

(** The arguments [sendTransfer] passes to
    [contract.methods.createTransfer]: [transfer.custom.moneyId],
    [transfer.amount], [conditionToHex(transfer.executionCondition)],
    [uuidToHex(transfer.id)], [ilpToData(transfer.ilp)] and
    [transfer.custom.direction]; the expiry argument
    [isoToHex(web3, transfer.expiresAt)] is left out. A property read on
    the empty-string [custom] of a not-found record is [undefined]. *)
Record CreateTransferArgs := mkCreateArgs {
  a_moneyId : option string; a_amount : Z; a_condition : string; a_id : string;
  a_data : string; a_direction : option string }.

Definition createTransfer_args (transfer : Transfer) : CreateTransferArgs :=
  let '(moneyId, direction) :=
    match t_custom transfer with
    | CustomObj m d => (Some m, d)
    | CustomEmpty => (None, None)
    end in
  {| a_moneyId := moneyId; a_amount := t_amount transfer;
     a_condition := conditionToHex (t_executionCondition transfer);
     a_id := uuidToHex (t_id transfer); a_data := ilpToData (t_ilp transfer);
     a_direction := direction |}.

(* ------------------------------------------------------------------ *)
(** ** Remaining plugin operations *)

(** [getRequests(_address, _state, _direction)], given the answer of
    [contract.methods.getRequests(...).call()]. *)
Definition getRequests (result : JsResult (list string)) : JsResult (list string) :=
  r <- result ;;
  if (length r =? 0)%nat then Ret r else Ret (map hexToUuid r).

(** [isConnected()] *)
Definition isConnected (pl : Plugin) : bool := truthy (p_web3 pl) || truthy (p_extWeb3 pl).

(** The connection-lifecycle part of the instance: the plugin fields,
    [isProcessing], the interval timers started by [_heartbeat], the
    event subscriptions registered on the contract, and the next fresh
    [Web3] handle. *)
Record Conn := mkConn {
  c_pl : Plugin;
  c_isProcessing : bool;
  c_timers : nat;
  c_subscriptions : nat;
  c_next_web3 : nat }.

Inductive LinkAction :=
| LNewWeb3 (endpoint : string)   (* [new Web3(createWebsocketProvider(this.provider))] *)
| LCloseLink (web3 : nat).       (* [this.web3.currentProvider.disconnect()] *)

Definition set_contract (pl : Plugin) (contract : Contract) : Plugin :=
  {| p_prefix := p_prefix pl; p_address := p_address pl;
     p_primaryProvider := p_primaryProvider pl; p_secondaryProvider := p_secondaryProvider pl;
     p_provider := p_provider pl; p_web3 := p_web3 pl; p_extWeb3 := p_extWeb3 pl;
     p_contract := Some contract; p_outgoingList := p_outgoingList pl;
     p_incomingList := p_incomingList pl |}.

Definition set_ext (pl : Plugin) (ext : option nat) : Plugin :=
  {| p_prefix := p_prefix pl; p_address := p_address pl;
     p_primaryProvider := p_primaryProvider pl; p_secondaryProvider := p_secondaryProvider pl;
     p_provider := p_provider pl; p_web3 := p_web3 pl; p_extWeb3 := ext;
     p_contract := p_contract pl; p_outgoingList := p_outgoingList pl;
     p_incomingList := p_incomingList pl |}.

(** [_heartbeat()]: the interval is started unless an external handle is
    bound or it is already running. *)
Definition _heartbeat (cs : Conn) : Conn :=
  if truthy (p_extWeb3 (c_pl cs)) then cs
  else if c_isProcessing cs then cs
  else {| c_pl := c_pl cs; c_isProcessing := true; c_timers := S (c_timers cs);
          c_subscriptions := c_subscriptions cs; c_next_web3 := c_next_web3 cs |}.

(** [connect()]; [store] is the contract object built from the ABI and the
    contract address. The four [.on('data')] registrations (Deposit,
    Withdraw, Fulfill, Update) add four subscriptions. *)
Definition connect (cs : Conn) (store : Contract) : Conn * list LinkAction * list Event :=
  let pl := c_pl cs in
  let bound :=
    match p_extWeb3 pl with
    | Some _ => Some (cs, [])
    | None =>
        match p_web3 pl with
        | Some _ => None   (* if (this.web3) return *)
        | None =>
            let h := c_next_web3 cs in
            Some ({| c_pl := with_link pl (Some h) (p_provider pl);
                     c_isProcessing := c_isProcessing cs; c_timers := c_timers cs;
                     c_subscriptions := c_subscriptions cs; c_next_web3 := S h |},
                  [LNewWeb3 (p_provider pl)])
        end
    end in
  match bound with
  | None => (cs, [], [])
  | Some (cs1, acts) =>
      let cs2 := {| c_pl := set_contract (c_pl cs1) store;
                    c_isProcessing := c_isProcessing cs1; c_timers := c_timers cs1;
                    c_subscriptions := c_subscriptions cs1 + 4; c_next_web3 := c_next_web3 cs1 |} in
      (_heartbeat cs2, acts, [mkEvent "connect" []])
  end.

(** [disconnect()]: the contract binding is left in place. *)
Definition disconnect (cs : Conn) : Conn * list LinkAction * list Event :=
  let pl := c_pl cs in
  match p_web3 pl with
  | None => (cs, [], [])
  | Some w =>
      ({| c_pl := with_link pl None (p_provider pl); c_isProcessing := c_isProcessing cs;
          c_timers := c_timers cs; c_subscriptions := c_subscriptions cs;
          c_next_web3 := c_next_web3 cs |},
       [LCloseLink w], [mkEvent "disconnect" []])
  end.

(** [setWeb3(_web3)] *)
Definition setWeb3 (cs : Conn) (ext : nat) : Conn :=
  {| c_pl := set_ext (c_pl cs) (Some ext); c_isProcessing := c_isProcessing cs;
     c_timers := c_timers cs; c_subscriptions := c_subscriptions cs;
     c_next_web3 := c_next_web3 cs |}.

(** Calls a user makes on the lifecycle API. *)
Inductive LifecycleOp :=
| OpConnect (store : Contract)
| OpDisconnect
| OpSetWeb3 (ext : nat).

Definition lifecycle_step (cs : Conn) (op : LifecycleOp) : Conn * list Event :=
  match op with
  | OpConnect store => let '(cs', _, evs) := connect cs store in (cs', evs)
  | OpDisconnect => let '(cs', _, evs) := disconnect cs in (cs', evs)
  | OpSetWeb3 ext => (setWeb3 cs ext, [])
  end.

Fixpoint run_lifecycle (cs : Conn) (ops : list LifecycleOp) : Conn * list Event :=
  match ops with
  | [] => (cs, [])
  | op :: ops' =>
      let '(cs1, evs1) := lifecycle_step cs op in
      let '(cs2, evs2) := run_lifecycle cs1 ops' in
      (cs2, (evs1 ++ evs2)%list)
  end.

(** One run of the interval callback on the instance: [heartbeat_tick]
    acting on the plugin fields, the rest of the instance unchanged. *)
Definition probe_tick (cs : Conn) (listening : bool) : Conn * list ProbeAction :=
  let '(pl', acts) := heartbeat_tick (c_pl cs) listening in
  ({| c_pl := pl'; c_isProcessing := c_isProcessing cs; c_timers := c_timers cs;
      c_subscriptions := c_subscriptions cs; c_next_web3 := c_next_web3 cs |}, acts).

(** Network writes in an action log. *)
Definition count_writes (acts : list Action) : nat :=
  length (filter (fun a => match a with ANetWrite _ _ _ => true | _ => false end) acts).

(** A node rejection text that [_fulfillCondition] and
    [_rejectIncomingTransfer] treat as a sequence conflict. *)
Definition is_conflict_text (m : string) : Prop :=
  contains "replacement transaction underpriced" m = true \/ contains "known transaction" m = true.

(** The probe-timer invariant: one interval timer exactly when
    [isProcessing] is set. *)
Definition timer_inv (cs : Conn) : Prop :=
  c_timers cs = (if c_isProcessing cs then 1 else 0)%nat.

(** A freshly constructed instance ([new PluginRddn(opts)]). *)
Definition fresh_conn (pl : Plugin) : Conn := mkConn pl false 0 0 1.

(* ================================================================== *)
(** * Theorems *)

(** ** Auxiliary lemmas *)

Lemma js_str_eq_true (v : option string) (s : string) :
  js_str_eq v s = true -> v = Some s.
Proof. destruct v as [x|]; cbn; [intros H; apply String.eqb_eq in H; subst; reflexivity | discriminate]. Qed.

(** ** Submission error classification *)

(** C2 (code_bug). For a [sendTransfer] whose submission the node rejects
    with "known transaction", the caller gets the raw rejection, whereas
    [_fulfillCondition] and [_rejectIncomingTransfer] turn the same text
    into a [PastSequenceError]. *)
Theorem sendTransfer_known_transaction_not_reclassified :
  let pl := Sample.plugin (Sample.store (Sample.raw Sample.self Sample.other 0)) in
  let resp := (0, NodeReject "known transaction") in
  sendTransfer pl 0 resp =
    ([ATxCall OpCreateTransfer (Some 1%nat) 0; ANetWrite OpCreateTransfer 1 0],
     Throw (mkErr EError "known transaction"), 0) /\
  _fulfillCondition pl 0 resp =
    ([ATxCall OpFulfillTransfer (Some 1%nat) 0; ANetWrite OpFulfillTransfer 1 0],
     Throw PastSequenceError, 0) /\
  _rejectIncomingTransfer pl 0 resp =
    ([ATxCall OpAbortTransfer (Some 1%nat) 0; ANetWrite OpAbortTransfer 1 0],
     Throw PastSequenceError, 0).
Proof. vm_compute. repeat split. Qed.

(** ** Retry coordinator *)

(** C3 (code_bug). [fulfillCondition] whose first submission meets a
    sequence conflict ("known transaction", answered after 10 ms) issues
    the second submission at 10 ms, the very moment of the failure: the
    500 ms timer is started but not awaited. *)
Theorem fulfillCondition_retries_without_backoff :
  let pl := Sample.plugin (Sample.store (Sample.raw Sample.self Sample.other 0)) in
  fulfillCondition pl 0 [(10, NodeReject "known transaction"); (10, NodeAccept)] =
    ([ATxCall OpFulfillTransfer (Some 1%nat) 0; ANetWrite OpFulfillTransfer 1 0;
      ATimerStart 10 500;
      ATxCall OpFulfillTransfer (Some 1%nat) 10; ANetWrite OpFulfillTransfer 1 10],
     Done).
Proof. vm_compute. reflexivity. Qed.

(** ** Health probe *)

(** C4. Connected to the primary endpoint, a tick whose liveness query
    fails closes the link, makes the secondary endpoint active and opens
    the new provider on it; a tick while disconnected flips the active
    endpoint between primary and secondary and opens a provider on the new
    one. Ticks are 5000 ms apart. *)
Theorem heartbeat_tick_failover (pl : Plugin) (w : nat) (listening : bool) :
  heartbeat_interval = 5000 /\
  (p_web3 pl = Some w -> p_provider pl = p_primaryProvider pl ->
   heartbeat_tick pl false =
     (with_link pl None (p_secondaryProvider pl),
      [PCloseLink w; PCreateProvider (p_secondaryProvider pl)])) /\
  (p_web3 pl = None ->
   let next := if String.eqb (p_provider pl) (p_primaryProvider pl)
               then p_secondaryProvider pl else p_primaryProvider pl in
   heartbeat_tick pl listening = (with_link pl None next, [PCreateProvider next]) /\
   (p_provider pl = p_primaryProvider pl -> next = p_secondaryProvider pl) /\
   (p_provider pl <> p_primaryProvider pl -> next = p_primaryProvider pl)).
Proof.
  split; [reflexivity|]. split.
  - intros Hw Hp. unfold heartbeat_tick, flip_provider. rewrite Hw. cbn.
    rewrite Hw, Hp, String.eqb_refl. reflexivity.
  - intros Hw next. unfold heartbeat_tick, flip_provider. rewrite Hw. cbn.
    split; [reflexivity|]. subst next. split.
    + intros Hp. rewrite Hp, String.eqb_refl. reflexivity.
    + intros Hp. apply String.eqb_neq in Hp. rewrite Hp. reflexivity.
Qed.

(** ** Forced re-emission *)

(** C9 (code_bug). [forceEmitPrepare] on a transfer from the adapter's own
    account to another one throws a ReferenceError ([_] is not bound in
    [plugin.js]) instead of returning true with an [outgoing_prepare]
    event. *)
Theorem forceEmitPrepare_outgoing_throws :
  let c := Sample.store (Sample.raw Sample.self Sample.other 0) in
  let pl := Sample.plugin c in
  (exists t, getTransfer pl c Sample.uuid = Ret t /\ t_from t = getAccount pl) /\
  forceEmitPrepare pl c Sample.uuid = (Throw (mkErr EReferenceError "_ is not defined"), []).
Proof. split; [eexists; split; vm_compute; reflexivity | vm_compute; reflexivity]. Qed.

(** ** Connectivity precheck *)

(** C10 (counterexample). On a disconnected plugin, [_fulfillCondition]
    and [_rejectIncomingTransfer] submit nothing, even when the node would
    accept: their only step is the [Transaction.*] call with a [null]
    handle, which throws a TypeError on [web3.eth] before any node call. *)
Theorem unconnected_fulfill_no_submission :
  let pl := Sample.unconnected (Sample.store (Sample.raw Sample.self Sample.other 0)) in
  p_web3 pl = None /\ p_extWeb3 pl = None /\
  _fulfillCondition pl 0 (10, NodeAccept) =
    ([ATxCall OpFulfillTransfer None 0],
     Throw (mkErr ETypeError "Cannot read properties of null (reading 'eth')"), 0) /\
  _rejectIncomingTransfer pl 0 (10, NodeAccept) =
    ([ATxCall OpAbortTransfer None 0],
     Throw (mkErr ETypeError "Cannot read properties of null (reading 'eth')"), 0) /\
  count_writes (fst (fst (_fulfillCondition pl 0 (10, NodeAccept)))) = 0%nat /\
  count_writes (fst (fst (_rejectIncomingTransfer pl 0 (10, NodeAccept)))) = 0%nat.
Proof. vm_compute. repeat split. Qed.

(** C10 (amended). With neither an owned nor an external node handle
    bound, [sendTransfer] throws "must be connected" without calling the
    submitter.  [_fulfillCondition] and [_rejectIncomingTransfer] have no
    such check: they call [Transaction.*] at once with a [null] handle, and
    that call throws a TypeError (reading ['eth'] of the [null] handle, or
    ['methods'] of an unbound contract) with no node call, no network
    write and no time spent; the error is passed on unchanged. *)
Theorem unconnected_submissions (pl : Plugin) (t : Z) (resp : Z * NodeOutcome) :
  p_web3 pl = None -> p_extWeb3 pl = None ->
  let e := mkErr ETypeError
             (match p_contract pl with
              | None => "Cannot read properties of undefined (reading 'methods')"
              | Some _ => "Cannot read properties of null (reading 'eth')"
              end) in
  sendTransfer pl t resp = ([], Throw (mkErr EError "must be connected"), t) /\
  _fulfillCondition pl t resp = ([ATxCall OpFulfillTransfer None t], Throw e, t) /\
  _rejectIncomingTransfer pl t resp = ([ATxCall OpAbortTransfer None t], Throw e, t).
Proof.
  intros Hw He e. subst e.
  unfold sendTransfer, _fulfillCondition, _rejectIncomingTransfer, Transaction_call,
    handle, truthy.
  rewrite Hw, He. destruct resp as [d o].
  destruct (p_contract pl); cbn; repeat split; reflexivity.
Qed.

(** ** Dispatch of notifications *)

(** C1 (counterexample). A transfer from the adapter's own account to
    itself is dispatched as [incoming_prepare], not [outgoing_prepare]. *)
Theorem dispatch_self_transfer_is_incoming :
  let c := Sample.store (Sample.raw Sample.self Sample.self 0) in
  let pl := Sample.plugin c in
  (exists t, _getRddnTransfer c (p_prefix pl) (uuidToHex Sample.uuid) = Ret t /\
             t_from t = getAccount pl) /\
  (forall evs, on_notification pl c (NUpdate (uuidToHex Sample.uuid)) = Ret evs ->
   map ev_name evs = ["incoming_prepare"] /\ ~ In "outgoing_prepare" (map ev_name evs)).
Proof.
  split.
  - eexists. split; vm_compute; reflexivity.
  - intros evs H. vm_compute in H. injection H as <-. cbn.
    split; [reflexivity|]. intros [Heq|[]]. discriminate Heq.
Qed.

(** C1 (amended). Every Transfer resolved by a notification handler
    produces exactly one event: [incoming_{state}] when its [to] is the
    adapter's account, otherwise [outgoing_{state}] when its [from] is,
    both with [ledger] stamped with the prefix and, for [fulfill], the
    fulfillment and the payload as extra arguments; otherwise
    [event_{state}] with the unchanged Transfer (no [ledger], no
    [direction]), plus the fulfillment for [fulfill]. *)
Theorem dispatch_notification (pl : Plugin) (c : Contract) (n : Notification) (t : Transfer) :
  _getRddnTransfer c (p_prefix pl) (notif_id n) = Ret t ->
  exists ev, on_notification pl c n = Ret [ev] /\
    (t_to t = getAccount pl ->
       ev = spec_directed_event pl "incoming" t (notif_fulfillment n)) /\
    (t_to t <> getAccount pl -> t_from t = getAccount pl ->
       ev = spec_directed_event pl "outgoing" t (notif_fulfillment n)) /\
    (t_to t <> getAccount pl -> t_from t <> getAccount pl ->
       ev = spec_undirected_event t (notif_fulfillment n) /\
       t_ledger t = None /\ t_direction t = None).
Proof.
  intros Ht.
  assert (Hnone : t_ledger t = None /\ t_direction t = None).
  { revert Ht. unfold _getRddnTransfer, bind.
    destruct (c_getTransfer c (notif_id n)) as [raw|e]; [|discriminate].
    destruct (String.eqb (r_from raw) zero_address).
    - intros H. injection H as <-. split; reflexivity.
    - destruct (c_getMoneyIdByTransferId c (notif_id n)); [|discriminate].
      destruct (c_getIlpPacket c (notif_id n)); [|discriminate].
      destruct (toISOString (r_expires raw * 1000)); [|discriminate].
      intros H. injection H as <-. split; reflexivity. }
  assert (Hrun : on_notification pl c n = Ret (_processUpdate pl t (notif_fulfillment n))).
  { destruct n; cbn [on_notification notif_id notif_fulfillment] in *; rewrite Ht; reflexivity. }
  rewrite Hrun. unfold _processUpdate.
  destruct (String.eqb (t_to t) (getAccount pl)) eqn:Eto;
    [apply String.eqb_eq in Eto | apply String.eqb_neq in Eto];
  destruct (String.eqb (t_from t) (getAccount pl)) eqn:Efrom;
    [apply String.eqb_eq in Efrom | apply String.eqb_neq in Efrom | apply String.eqb_eq in Efrom
    | apply String.eqb_neq in Efrom];
  unfold spec_directed_event, spec_undirected_event; cbn;
  destruct (js_str_eq (t_state t) "fulfill") eqn:Ef;
  try (apply js_str_eq_true in Ef; rewrite Ef);
  (eexists; split; [reflexivity|]);
  repeat split; intros; solve [contradiction | tauto | reflexivity].
Qed.

(** ** Transfer projection *)

Lemma stateToName_out_of_range (z : Z) : ~ In z [0; 1; 2] -> stateToName z = None.
Proof.
  intros Hn. unfold stateToName.
  destruct z as [|[p|[p|p|]|]|p]; cbn in *; try reflexivity; tauto.
Qed.

Lemma directionToName_out_of_range (z : Z) : ~ In z [0; 1] -> directionToName z = None.
Proof.
  intros Hn. unfold directionToName.
  destruct z as [|[p|p|]|p]; cbn in *; try reflexivity; tauto.
Qed.

(** C5 (counterexample). The record returned for the zero-address
    sentinel keeps a non-empty [id]: the canonical form of the id asked
    for. *)
Theorem not_found_keeps_id :
  let c := Sample.store (Sample.raw zero_address zero_address 0) in
  exists t, _getRddnTransfer c Sample.prefix (uuidToHex Sample.uuid) = Ret t /\
    t_state t = Some "" /\ t_id t = Sample.uuid /\ t_id t <> "".
Proof. eexists. vm_compute. repeat split. discriminate. Qed.

(** C5 (amended). When the store's record has the zero address as
    [from], the projection returns, without throwing and without any
    further read, the not-found Transfer: state [""], [from], [to],
    [ilp], [executionCondition], [expiresAt] and [custom] empty, amount
    0, and [id] the canonical form of the queried identifier. *)
Theorem not_found_projection (c : Contract) (prefix _id : string) (raw : RawTransfer) :
  c_getTransfer c _id = Ret raw -> r_from raw = zero_address ->
  exists t, _getRddnTransfer c prefix _id = Ret t /\
    t_state t = Some "" /\ t_from t = "" /\ t_to t = "" /\ t_amount t = 0 /\
    t_ilp t = "" /\ t_executionCondition t = "" /\ t_expiresAt t = "" /\
    t_custom t = CustomEmpty /\ t_id t = hexToUuid _id.
Proof.
  intros Hc Hz. unfold _getRddnTransfer. rewrite Hc. cbn [bind].
  rewrite Hz, String.eqb_refl. eexists. split; [reflexivity|].
  repeat split.
Qed.

(** C8 (counterexample). A state code 3 yields a Transfer whose [state]
    is [undefined]; no error is raised. *)
Theorem state_code_out_of_range_is_undefined :
  let c := Sample.store (Sample.raw Sample.other Sample.self 3) in
  exists t, _getRddnTransfer c Sample.prefix (uuidToHex Sample.uuid) = Ret t /\
    t_state t = None.
Proof. eexists. vm_compute. split; reflexivity. Qed.

(** C8 (amended). The codes are looked up in the tables without a range
    check: when the store's reads succeed and the expiry is a valid time,
    the projection returns a Transfer whose [state] is [stateToName] of
    the code and whose [custom.direction] is [directionToName] of the
    code, [undefined] for a state code outside {0,1,2} or a direction
    code outside {0,1}. *)
Theorem codes_out_of_range_undefined (c : Contract) (prefix _id m packet : string)
  (raw : RawTransfer) :
  c_getTransfer c _id = Ret raw -> r_from raw <> zero_address ->
  c_getMoneyIdByTransferId c _id = Ret m -> c_getIlpPacket c _id = Ret packet ->
  Z.abs (r_expires raw * 1000) <= 8640000000000000 ->
  exists t, _getRddnTransfer c prefix _id = Ret t /\
    t_state t = stateToName (r_state raw) /\
    t_custom t = CustomObj m (directionToName (r_direction raw)) /\
    (~ In (r_state raw) [0; 1; 2] -> t_state t = None) /\
    (~ In (r_direction raw) [0; 1] -> t_custom t = CustomObj m None).
Proof.
  intros Hc Hz Hm Hp Hr. unfold _getRddnTransfer. rewrite Hc. cbn [bind].
  apply String.eqb_neq in Hz. rewrite Hz, Hm, Hp. cbn [bind].
  unfold toISOString. replace (Z.abs (r_expires raw * 1000) >? 8640000000000000) with false
    by (symmetry; rewrite Z.gtb_ltb; apply Z.ltb_ge; lia).
  destruct (civil_from_days _) as [[y mo] d]. cbn [bind].
  eexists. split; [reflexivity|]. cbn.
  repeat split.
  - apply stateToName_out_of_range.
  - intros Hn. rewrite (directionToName_out_of_range _ Hn). reflexivity.
Qed.

(** ** Identifier codec *)

(** C7 (counterexample). A string that is not a UUID is turned into a
    ledger id like any other. *)
Theorem uuidToHex_accepts_non_uuid :
  is_uuid "not-a-uuid" = false /\ uuidToHex "not-a-uuid" = "0xnotauuid".
Proof. split; reflexivity. Qed.

Lemma remove_dashes_no_dash (s : string) : contains "-" (remove_dashes s) = false.
Proof.
  induction s as [|c s IH]; [reflexivity|]. cbn [remove_dashes].
  destruct (Ascii.eqb c "-") eqn:E; [exact IH|].
  cbn [contains starts_with]. rewrite IH, orb_false_r, andb_true_r.
  destruct (Ascii.eqb "-" c) eqn:E'; [|reflexivity].
  apply Ascii.eqb_eq in E'. subst c. discriminate E.
Qed.

Lemma remove_dashes_id (s : string) : contains "-" s = false -> remove_dashes s = s.
Proof.
  induction s as [|c s IH]; [reflexivity|]. cbn [contains starts_with remove_dashes]. intros H.
  apply orb_false_iff in H as [H1 H2]. rewrite andb_true_r in H1.
  destruct (Ascii.eqb c "-") eqn:E.
  - apply Ascii.eqb_eq in E. subst c. discriminate H1.
  - rewrite (IH H2). reflexivity.
Qed.

Lemma remove_dashes_spec (s : string) : remove_dashes s = spec_without_dashes s.
Proof.
  unfold spec_without_dashes.
  induction s as [|c s IH]; [reflexivity|]. cbn [remove_dashes list_ascii_of_string filter].
  destruct (Ascii.eqb c "-"); cbn [negb string_of_list_ascii]; rewrite IH; reflexivity.
Qed.

(** C7 (amended). [uuidToHex] performs no validation and never fails:
    for every string it returns ["0x"] followed by the string with every
    ['-'] removed (its other characters, in order), which contains no ['-']
    and is the string itself when the string has no ['-']. *)
Theorem uuidToHex_total (s : string) :
  exists r, uuidToHex s = "0x" ++ r /\ r = spec_without_dashes s /\
    contains "-" r = false /\ (contains "-" s = false -> r = s).
Proof.
  exists (remove_dashes s). split; [reflexivity|].
  split; [apply remove_dashes_spec|].
  split; [apply remove_dashes_no_dash | apply remove_dashes_id].
Qed.

(** C6 (counterexample). A UUID written with upper-case hex digits comes
    back in lower case. *)
Theorem uuid_roundtrip_lowercases :
  let u := "F55585E1-0C19-4588-832D-369CFA005640" in
  is_uuid u = true /\ hexToUuid (uuidToHex u) = "f55585e1-0c19-4588-832d-369cfa005640" /\
  hexToUuid (uuidToHex u) <> u.
Proof. vm_compute. split; [reflexivity|]. split; [reflexivity|discriminate]. Qed.

(** *** The round trip on lower-case UUIDs *)

Lemma lower_hex_pair (a b : ascii) :
  is_lower_hex_digit a = true -> is_lower_hex_digit b = true ->
  exists x y, hexval a = Some x /\ hexval b = Some y /\
              byte_to_hex (16 * x + y) = String a (String b EmptyString).
Proof.
  unfold is_lower_hex_digit. intros Ha Hb.
  apply existsb_exists in Ha as [a' [Ina Ea]]. apply Ascii.eqb_eq in Ea. subst a'.
  apply existsb_exists in Hb as [b' [Inb Eb]]. apply Ascii.eqb_eq in Eb. subst b'.
  cbn in Ina, Inb.
  repeat destruct Ina as [<-|Ina]; try contradiction;
  repeat destruct Inb as [<-|Inb]; try contradiction;
  do 2 eexists; (split; [reflexivity|split; [reflexivity|vm_compute; reflexivity]]).
Qed.

Lemma lower_hex_not_dash (c : ascii) : is_lower_hex_digit c = true -> Ascii.eqb c "-" = false.
Proof.
  intros H. destruct (Ascii.eqb c "-") eqn:E; [|reflexivity].
  apply Ascii.eqb_eq in E. subst c. discriminate H.
Qed.

Lemma remove_dashes_app (a b : string) :
  remove_dashes (a ++ b) = remove_dashes a ++ remove_dashes b.
Proof.
  induction a as [|c a IH]; [reflexivity|]. cbn [String.append remove_dashes].
  rewrite IH. destruct (Ascii.eqb c "-"); reflexivity.
Qed.

Lemma remove_dashes_lower_hex (g : string) :
  all_chars is_lower_hex_digit g = true -> remove_dashes g = g.
Proof.
  induction g as [|c g IH]; [reflexivity|]. cbn [all_chars remove_dashes].
  intros H. apply andb_prop in H as [Hc Hg].
  rewrite (lower_hex_not_dash c Hc), (IH Hg). reflexivity.
Qed.

Lemma hex_to_bytes_app (n : nat) (a b : string) :
  all_chars is_lower_hex_digit a = true -> String.length a = (2 * n)%nat ->
  hex_to_bytes (a ++ b) = (hex_to_bytes a ++ hex_to_bytes b)%list.
Proof.
  revert a. induction n as [|n IH]; intros a Ha Hl.
  - destruct a; [reflexivity|discriminate Hl].
  - destruct a as [|x [|y a]]; try (cbn in Hl; lia).
    cbn [all_chars] in Ha. apply andb_prop in Ha as [Hx Ha]. apply andb_prop in Ha as [Hy Ha].
    destruct (lower_hex_pair x y Hx Hy) as (vx & vy & Ex & Ey & _).
    cbn [String.append hex_to_bytes]. rewrite Ex, Ey.
    rewrite (IH a Ha) by (cbn in Hl; lia). reflexivity.
Qed.

Lemma hex_bytes_roundtrip (n : nat) (g : string) :
  all_chars is_lower_hex_digit g = true -> String.length g = (2 * n)%nat ->
  bytes_hex (hex_to_bytes g) = g /\ length (hex_to_bytes g) = n.
Proof.
  revert g. induction n as [|n IH]; intros g Hg Hl.
  - destruct g; [split; reflexivity|discriminate Hl].
  - destruct g as [|x [|y g]]; try (cbn in Hl; lia).
    cbn [all_chars] in Hg. apply andb_prop in Hg as [Hx Hg]. apply andb_prop in Hg as [Hy Hg].
    destruct (lower_hex_pair x y Hx Hy) as (vx & vy & Ex & Ey & Eb).
    cbn [hex_to_bytes]. rewrite Ex, Ey.
    destruct (IH g Hg) as [IH1 IH2]; [cbn in Hl; lia|].
    cbn [bytes_hex fold_right length]. fold (bytes_hex (hex_to_bytes g)).
    rewrite Eb, IH1, IH2. split; reflexivity.
Qed.

Lemma unparse_groups (l1 l2 l3 l4 l5 : list Z) :
  length l1 = 4%nat -> length l2 = 2%nat -> length l3 = 2%nat -> length l4 = 2%nat ->
  length l5 = 6%nat ->
  unparse (l1 ++ l2 ++ l3 ++ l4 ++ l5)%list =
    bytes_hex l1 ++ "-" ++ bytes_hex l2 ++ "-" ++ bytes_hex l3 ++ "-" ++
    bytes_hex l4 ++ "-" ++ bytes_hex l5.
Proof.
  intros H1 H2 H3 H4 H5.
  destruct l1 as [|a0 [|a1 [|a2 [|a3 [|]]]]]; try discriminate H1.
  destruct l2 as [|a4 [|a5 [|]]]; try discriminate H2.
  destruct l3 as [|a6 [|a7 [|]]]; try discriminate H3.
  destruct l4 as [|a8 [|a9 [|]]]; try discriminate H4.
  destruct l5 as [|b0 [|b1 [|b2 [|b3 [|b4 [|b5 [|]]]]]]]; try discriminate H5.
  reflexivity.
Qed.

Lemma uuid_chars_ok_length (p : ascii -> bool) (s : string) (i : nat) :
  uuid_chars_ok p i s = true -> (i + String.length s = 36)%nat.
Proof.
  revert i. induction s as [|c s IH]; intros i H; cbn in H.
  - apply Nat.eqb_eq in H. cbn. lia.
  - apply andb_prop in H as [_ H]. apply IH in H. cbn. lia.
Qed.

Lemma lower_uuid_split (u : string) :
  is_lower_uuid u = true ->
  exists g1 g2 g3 g4 g5,
    all_chars is_lower_hex_digit g1 = true /\ all_chars is_lower_hex_digit g2 = true /\
    all_chars is_lower_hex_digit g3 = true /\ all_chars is_lower_hex_digit g4 = true /\
    all_chars is_lower_hex_digit g5 = true /\
    String.length g1 = 8%nat /\ String.length g2 = 4%nat /\ String.length g3 = 4%nat /\
    String.length g4 = 4%nat /\ String.length g5 = 12%nat /\
    u = g1 ++ "-" ++ g2 ++ "-" ++ g3 ++ "-" ++ g4 ++ "-" ++ g5.
Proof.
  intros H. pose proof (uuid_chars_ok_length _ _ _ H) as Hl. cbn in Hl.
  destruct u as [|c0 u]; [cbn in Hl; lia|].
  destruct u as [|c1 u]; [cbn in Hl; lia|].
  destruct u as [|c2 u]; [cbn in Hl; lia|].
  destruct u as [|c3 u]; [cbn in Hl; lia|].
  destruct u as [|c4 u]; [cbn in Hl; lia|].
  destruct u as [|c5 u]; [cbn in Hl; lia|].
  destruct u as [|c6 u]; [cbn in Hl; lia|].
  destruct u as [|c7 u]; [cbn in Hl; lia|].
  destruct u as [|c8 u]; [cbn in Hl; lia|].
  destruct u as [|c9 u]; [cbn in Hl; lia|].
  destruct u as [|c10 u]; [cbn in Hl; lia|].
  destruct u as [|c11 u]; [cbn in Hl; lia|].
  destruct u as [|c12 u]; [cbn in Hl; lia|].
  destruct u as [|c13 u]; [cbn in Hl; lia|].
  destruct u as [|c14 u]; [cbn in Hl; lia|].
  destruct u as [|c15 u]; [cbn in Hl; lia|].
  destruct u as [|c16 u]; [cbn in Hl; lia|].
  destruct u as [|c17 u]; [cbn in Hl; lia|].
  destruct u as [|c18 u]; [cbn in Hl; lia|].
  destruct u as [|c19 u]; [cbn in Hl; lia|].
  destruct u as [|c20 u]; [cbn in Hl; lia|].
  destruct u as [|c21 u]; [cbn in Hl; lia|].
  destruct u as [|c22 u]; [cbn in Hl; lia|].
  destruct u as [|c23 u]; [cbn in Hl; lia|].
  destruct u as [|c24 u]; [cbn in Hl; lia|].
  destruct u as [|c25 u]; [cbn in Hl; lia|].
  destruct u as [|c26 u]; [cbn in Hl; lia|].
  destruct u as [|c27 u]; [cbn in Hl; lia|].
  destruct u as [|c28 u]; [cbn in Hl; lia|].
  destruct u as [|c29 u]; [cbn in Hl; lia|].
  destruct u as [|c30 u]; [cbn in Hl; lia|].
  destruct u as [|c31 u]; [cbn in Hl; lia|].
  destruct u as [|c32 u]; [cbn in Hl; lia|].
  destruct u as [|c33 u]; [cbn in Hl; lia|].
  destruct u as [|c34 u]; [cbn in Hl; lia|].
  destruct u as [|c35 u]; [cbn in Hl; lia|].
  destruct u; [|cbn in Hl; lia].
  unfold is_lower_uuid in H. cbn -[is_lower_hex_digit Ascii.eqb] in H.
  repeat (let Hc := fresh "Hc" in apply andb_prop in H as [Hc H]).
  repeat match goal with
         | Hd : Ascii.eqb ?c "-" = true |- _ => apply Ascii.eqb_eq in Hd; subst c
         end.
  exists (String c0 (String c1 (String c2 (String c3 (String c4 (String c5 (String c6 (String c7 EmptyString)))))))), (String c9 (String c10 (String c11 (String c12 EmptyString)))),
    (String c14 (String c15 (String c16 (String c17 EmptyString)))), (String c19 (String c20 (String c21 (String c22 EmptyString)))),
    (String c24 (String c25 (String c26 (String c27 (String c28 (String c29 (String c30 (String c31 (String c32 (String c33 (String c34 (String c35 EmptyString)))))))))))).
  cbn -[is_lower_hex_digit].
  repeat match goal with
         | Hc : is_lower_hex_digit ?c = true |- context [is_lower_hex_digit ?c] => rewrite Hc
         end.
  repeat split.
Qed.

(** *** The round trip on UUIDs of either case *)

Lemma is_hex_digit_cases (c : ascii) :
  is_hex_digit c = true ->
  existsb (Ascii.eqb c) (lower_hex_digits ++ ["A";"B";"C";"D";"E";"F"]%char) = true.
Proof.
  assert (T : forallb (fun n => implb (is_hex_digit (ascii_of_nat n))
                (existsb (Ascii.eqb (ascii_of_nat n))
                   (lower_hex_digits ++ ["A";"B";"C";"D";"E";"F"]%char)))
              (seq 0 256) = true) by (vm_compute; reflexivity).
  rewrite forallb_forall in T. intros H.
  assert (Hin : In (nat_of_ascii c) (seq 0 256))
    by (apply in_seq; pose proof (nat_ascii_bounded c); lia).
  specialize (T _ Hin). rewrite ascii_nat_embedding, H in T. exact T.
Qed.

Lemma hex_pair (a b : ascii) :
  is_hex_digit a = true -> is_hex_digit b = true ->
  exists x y, hexval a = Some x /\ hexval b = Some y /\
    byte_to_hex (16 * x + y) = String (lower_ascii a) (String (lower_ascii b) EmptyString).
Proof.
  intros Ha Hb.
  apply is_hex_digit_cases, existsb_exists in Ha as [a' [Ina Ea]]. apply Ascii.eqb_eq in Ea. subst a'.
  apply is_hex_digit_cases, existsb_exists in Hb as [b' [Inb Eb]]. apply Ascii.eqb_eq in Eb. subst b'.
  cbn in Ina, Inb.
  repeat destruct Ina as [<-|Ina]; try contradiction;
  repeat destruct Inb as [<-|Inb]; try contradiction;
  do 2 eexists; (split; [reflexivity|split; [reflexivity|vm_compute; reflexivity]]).
Qed.

Lemma hex_not_dash (c : ascii) : is_hex_digit c = true -> Ascii.eqb c "-" = false.
Proof.
  intros H. destruct (Ascii.eqb c "-") eqn:E; [|reflexivity].
  apply Ascii.eqb_eq in E. subst c. discriminate H.
Qed.

Lemma remove_dashes_hex (g : string) :
  all_chars is_hex_digit g = true -> remove_dashes g = g.
Proof.
  induction g as [|c g IH]; [reflexivity|]. cbn [all_chars remove_dashes].
  intros H. apply andb_prop in H as [Hc Hg].
  rewrite (hex_not_dash c Hc), (IH Hg). reflexivity.
Qed.

Lemma hex_to_bytes_app_hex (n : nat) (a b : string) :
  all_chars is_hex_digit a = true -> String.length a = (2 * n)%nat ->
  hex_to_bytes (a ++ b) = (hex_to_bytes a ++ hex_to_bytes b)%list.
Proof.
  revert a. induction n as [|n IH]; intros a Ha Hl.
  - destruct a; [reflexivity|discriminate Hl].
  - destruct a as [|x [|y a]]; try (cbn in Hl; lia).
    cbn [all_chars] in Ha. apply andb_prop in Ha as [Hx Ha]. apply andb_prop in Ha as [Hy Ha].
    destruct (hex_pair x y Hx Hy) as (vx & vy & Ex & Ey & _).
    cbn [String.append hex_to_bytes]. rewrite Ex, Ey.
    rewrite (IH a Ha) by (cbn in Hl; lia). reflexivity.
Qed.

Lemma hex_bytes_lower (n : nat) (g : string) :
  all_chars is_hex_digit g = true -> String.length g = (2 * n)%nat ->
  bytes_hex (hex_to_bytes g) = to_lower g /\ length (hex_to_bytes g) = n.
Proof.
  revert g. induction n as [|n IH]; intros g Hg Hl.
  - destruct g; [split; reflexivity|discriminate Hl].
  - destruct g as [|x [|y g]]; try (cbn in Hl; lia).
    cbn [all_chars] in Hg. apply andb_prop in Hg as [Hx Hg]. apply andb_prop in Hg as [Hy Hg].
    destruct (hex_pair x y Hx Hy) as (vx & vy & Ex & Ey & Eb).
    cbn [hex_to_bytes]. rewrite Ex, Ey.
    destruct (IH g Hg) as [IH1 IH2]; [cbn in Hl; lia|].
    cbn [bytes_hex fold_right length to_lower]. fold (bytes_hex (hex_to_bytes g)).
    rewrite Eb, IH1, IH2. split; reflexivity.
Qed.

Lemma to_lower_app (a b : string) : to_lower (a ++ b) = to_lower a ++ to_lower b.
Proof. induction a as [|c a IH]; [reflexivity|]. cbn. rewrite IH. reflexivity. Qed.

Lemma uuid_split (p : ascii -> bool) (u : string) :
  uuid_chars_ok p 0 u = true ->
  exists g1 g2 g3 g4 g5,
    all_chars p g1 = true /\ all_chars p g2 = true /\ all_chars p g3 = true /\
    all_chars p g4 = true /\ all_chars p g5 = true /\
    String.length g1 = 8%nat /\ String.length g2 = 4%nat /\ String.length g3 = 4%nat /\
    String.length g4 = 4%nat /\ String.length g5 = 12%nat /\
    u = g1 ++ "-" ++ g2 ++ "-" ++ g3 ++ "-" ++ g4 ++ "-" ++ g5.
Proof.
  intros H. pose proof (uuid_chars_ok_length _ _ _ H) as Hl. cbn in Hl.
  do 36 (destruct u as [|? u]; [cbn in Hl; lia|]).
  destruct u; [|cbn in Hl; lia].
  cbn -[Ascii.eqb] in H.
  repeat (let Hc := fresh "Hc" in apply andb_prop in H as [Hc H]).
  repeat match goal with
         | Hd : Ascii.eqb ?c "-" = true |- _ => apply Ascii.eqb_eq in Hd; subst c
         end.
  match goal with
  | |- exists _ _ _ _ _, _ /\ _ /\ _ /\ _ /\ _ /\ _ /\ _ /\ _ /\ _ /\ _ /\
        String ?c0 (String ?c1 (String ?c2 (String ?c3 (String ?c4 (String ?c5 (String ?c6
        (String ?c7 (String _ (String ?c9 (String ?c10 (String ?c11 (String ?c12
        (String _ (String ?c14 (String ?c15 (String ?c16 (String ?c17
        (String _ (String ?c19 (String ?c20 (String ?c21 (String ?c22
        (String _ (String ?c24 (String ?c25 (String ?c26 (String ?c27 (String ?c28
        (String ?c29 (String ?c30 (String ?c31 (String ?c32 (String ?c33 (String ?c34
        (String ?c35 EmptyString))))))))))))))))))))))))))))))))))) = _ =>
    exists (String c0 (String c1 (String c2 (String c3 (String c4 (String c5 (String c6 (String c7 EmptyString)))))))),
      (String c9 (String c10 (String c11 (String c12 EmptyString)))),
      (String c14 (String c15 (String c16 (String c17 EmptyString)))),
      (String c19 (String c20 (String c21 (String c22 EmptyString)))),
      (String c24 (String c25 (String c26 (String c27 (String c28 (String c29 (String c30
        (String c31 (String c32 (String c33 (String c34 (String c35 EmptyString))))))))))))
  end.
  cbn.
  repeat match goal with
         | Hc : p ?c = true |- context [p ?c] => rewrite Hc
         end.
  repeat split.
Qed.

Lemma uuid_chars_ok_lowered (i : nat) (u : string) :
  uuid_chars_ok is_hex_digit i u = true -> to_lower u = u ->
  uuid_chars_ok is_lower_hex_digit i u = true.
Proof.
  revert i. induction u as [|c u IH]; intros i H E; [exact H|].
  cbn [to_lower] in E. injection E as Ec Eu.
  cbn [uuid_chars_ok] in *. apply andb_prop in H as [Hc H].
  rewrite (IH _ H Eu), andb_true_r.
  destruct (uuid_dash_pos i); [exact Hc|].
  apply is_hex_digit_cases, existsb_exists in Hc as [c' [Inc Ec']].
  apply Ascii.eqb_eq in Ec'. subst c'.
  cbn in Inc. repeat destruct Inc as [<-|Inc]; try contradiction;
  try reflexivity; vm_compute in Ec; discriminate Ec.
Qed.

Lemma uuid_chars_ok_lower_fixed (i : nat) (u : string) :
  uuid_chars_ok is_lower_hex_digit i u = true -> to_lower u = u.
Proof.
  revert i. induction u as [|c u IH]; intros i H; [reflexivity|].
  cbn [uuid_chars_ok] in H. apply andb_prop in H as [Hc H].
  cbn [to_lower]. rewrite (IH _ H). f_equal.
  destruct (uuid_dash_pos i).
  - apply Ascii.eqb_eq in Hc. subst c. reflexivity.
  - unfold is_lower_hex_digit in Hc.
    apply existsb_exists in Hc as [c' [Inc Ec]]. apply Ascii.eqb_eq in Ec. subst c'.
    cbn in Inc. repeat destruct Inc as [<-|Inc]; try contradiction; reflexivity.
Qed.

(** C6 (amended). For every UUID, with hex digits of either case,
    converting it to the ledger id and back gives its lower-case form:
    [hexToUuid (uuidToHex u) = to_lower u].  So the round trip gives [u]
    back exactly when [u] is in canonical lower-case form. *)
Theorem uuid_roundtrip_lower (u : string) :
  is_uuid u = true ->
  hexToUuid (uuidToHex u) = to_lower u /\
  (hexToUuid (uuidToHex u) = u <-> is_lower_uuid u = true).
Proof.
  intros H.
  assert (R : hexToUuid (uuidToHex u) = to_lower u).
  { destruct (uuid_split is_hex_digit u H)
      as (g1 & g2 & g3 & g4 & g5 & H1 & H2 & H3 & H4 & H5 & L1 & L2 & L3 & L4 & L5 & ->).
    unfold hexToUuid, uuidToHex.
    rewrite !to_lower_app. change (to_lower "-") with "-".
    rewrite !remove_dashes_app. change (remove_dashes "-") with EmptyString.
    cbn [drop String.append].
    rewrite (remove_dashes_hex g1 H1), (remove_dashes_hex g2 H2),
      (remove_dashes_hex g3 H3), (remove_dashes_hex g4 H4), (remove_dashes_hex g5 H5).
    rewrite (hex_to_bytes_app_hex 4 g1) by assumption.
    rewrite (hex_to_bytes_app_hex 2 g2) by assumption.
    rewrite (hex_to_bytes_app_hex 2 g3) by assumption.
    rewrite (hex_to_bytes_app_hex 2 g4) by assumption.
    destruct (hex_bytes_lower 4 g1 H1 L1) as [R1 N1].
    destruct (hex_bytes_lower 2 g2 H2 L2) as [R2 N2].
    destruct (hex_bytes_lower 2 g3 H3 L3) as [R3 N3].
    destruct (hex_bytes_lower 2 g4 H4 L4) as [R4 N4].
    destruct (hex_bytes_lower 6 g5 H5 L5) as [R5 N5].
    rewrite unparse_groups by assumption.
    rewrite R1, R2, R3, R4, R5. reflexivity. }
  split; [exact R|]. split.
  - intros E. rewrite R in E. exact (uuid_chars_ok_lowered 0 u H E).
  - intros E. rewrite R. exact (uuid_chars_ok_lower_fixed 0 u E).
Qed.


(* ------------------------------------------------------------------ *)
(** ** Witnesses: the theorems applied at concrete inputs *)

Lemma heartbeat_tick_failover_witness :
  let pl := Sample.plugin (Sample.store (Sample.raw Sample.self Sample.other 0)) in
  p_web3 pl = Some 1%nat /\ p_provider pl = p_primaryProvider pl /\
  heartbeat_tick pl false =
    (with_link pl None "ws://p2:8546", [PCloseLink 1; PCreateProvider "ws://p2:8546"]) /\
  heartbeat_tick (with_link pl None "ws://p2:8546") true =
    (with_link pl None "ws://p1:8546", [PCreateProvider "ws://p1:8546"]).
Proof.
  intros pl. split; [reflexivity|]. split; [reflexivity|]. split.
  - apply (proj1 (proj2 (heartbeat_tick_failover pl 1 false))); reflexivity.
  - destruct (proj2 (proj2 (heartbeat_tick_failover (with_link pl None "ws://p2:8546") 1 true)))
      as [H _]; [reflexivity|].
    exact H.
Defined.

Lemma unconnected_submissions_witness :
  let pl := Sample.unconnected (Sample.store (Sample.raw Sample.self Sample.other 0)) in
  p_web3 pl = None /\ p_extWeb3 pl = None /\
  sendTransfer pl 0 (10, NodeAccept) = ([], Throw (mkErr EError "must be connected"), 0) /\
  _fulfillCondition pl 0 (10, NodeAccept) =
    ([ATxCall OpFulfillTransfer None 0],
     Throw (mkErr ETypeError "Cannot read properties of null (reading 'eth')"), 0) /\
  _rejectIncomingTransfer pl 0 (10, NodeAccept) =
    ([ATxCall OpAbortTransfer None 0],
     Throw (mkErr ETypeError "Cannot read properties of null (reading 'eth')"), 0).
Proof.
  intros pl. split; [reflexivity|]. split; [reflexivity|].
  exact (unconnected_submissions pl 0 (10, NodeAccept) eq_refl eq_refl).
Defined.

Lemma dispatch_notification_witness :
  let c := Sample.store (Sample.raw Sample.self Sample.other 0) in
  let pl := Sample.plugin c in
  let n := NUpdate (uuidToHex Sample.uuid) in
  exists t ev, _getRddnTransfer c (p_prefix pl) (notif_id n) = Ret t /\
    on_notification pl c n = Ret [ev] /\
    ev = spec_directed_event pl "outgoing" t None /\ ev_name ev = "outgoing_prepare".
Proof.
  intros c pl n.
  destruct (_getRddnTransfer c (p_prefix pl) (notif_id n)) as [t|e] eqn:Ht;
    [|vm_compute in Ht; discriminate Ht].
  destruct (dispatch_notification pl c n t Ht) as (ev & Hrun & _ & Hout & _).
  vm_compute in Ht. injection Ht as <-.
  exists (mkTransfer "f55585e1-0c19-4588-832d-369cfa005640"
            "g.rddn.0x1111111111111111111111111111111111111111"
            "g.rddn.0x2222222222222222222222222222222222222222" 1000 "AQI"
            "ABEiM0RVZneImaq7zN3u_wARIjNEVWZ3iJmqu8zd7v8"
            "2018-10-18T00:00:00.000Z" (CustomObj "JPY-1" (Some "deposit"))
            (Some "prepare") None None), ev.
  split; [reflexivity|]. split; [exact Hrun|].
  assert (Hev : ev = spec_directed_event pl "outgoing"
            (mkTransfer "f55585e1-0c19-4588-832d-369cfa005640"
               "g.rddn.0x1111111111111111111111111111111111111111"
               "g.rddn.0x2222222222222222222222222222222222222222" 1000 "AQI"
               "ABEiM0RVZneImaq7zN3u_wARIjNEVWZ3iJmqu8zd7v8"
               "2018-10-18T00:00:00.000Z" (CustomObj "JPY-1" (Some "deposit"))
               (Some "prepare") None None) None)
    by (apply Hout; [vm_compute; discriminate | reflexivity]).
  split; [exact Hev|]. rewrite Hev. reflexivity.
Defined.

Lemma not_found_projection_witness :
  let raw := Sample.raw zero_address zero_address 0 in
  let c := Sample.store raw in
  c_getTransfer c (uuidToHex Sample.uuid) = Ret raw /\ r_from raw = zero_address /\
  exists t, _getRddnTransfer c Sample.prefix (uuidToHex Sample.uuid) = Ret t /\
    t_state t = Some "" /\ t_from t = "" /\ t_to t = "" /\ t_amount t = 0 /\
    t_ilp t = "" /\ t_executionCondition t = "" /\ t_expiresAt t = "" /\
    t_custom t = CustomEmpty /\ t_id t = hexToUuid (uuidToHex Sample.uuid).
Proof.
  intros raw c. split; [reflexivity|]. split; [reflexivity|].
  apply (not_found_projection c Sample.prefix (uuidToHex Sample.uuid) raw); reflexivity.
Defined.

Lemma codes_out_of_range_undefined_witness :
  let raw := {| r_from := Sample.other; r_to := Sample.self; r_amount := 5;
                r_condition := "0x00"; r_expires := 0; r_state := 3; r_direction := 7 |} in
  let c := Sample.store raw in
  exists t, _getRddnTransfer c Sample.prefix (uuidToHex Sample.uuid) = Ret t /\
    t_state t = stateToName 3 /\ t_custom t = CustomObj "JPY-1" (directionToName 7) /\
    (~ In 3 [0; 1; 2] -> t_state t = None) /\
    (~ In 7 [0; 1] -> t_custom t = CustomObj "JPY-1" None).
Proof.
  intros raw c.
  apply (codes_out_of_range_undefined c Sample.prefix (uuidToHex Sample.uuid) "JPY-1" "0x0102" raw);
    try reflexivity.
  - vm_compute. discriminate.
  - vm_compute. discriminate.
Defined.

Lemma uuidToHex_total_witness :
  exists r, uuidToHex "a-b--c" = "0x" ++ r /\ r = spec_without_dashes "a-b--c" /\
    r = "abc" /\ contains "-" r = false.
Proof.
  destruct (uuidToHex_total "a-b--c") as (r & H1 & H2 & H3 & _).
  exists r. split; [exact H1|]. split; [exact H2|]. split; [rewrite H2; reflexivity|exact H3].
Defined.

Lemma uuid_roundtrip_lower_witness :
  is_uuid "F55585E1-0C19-4588-832D-369CFA005640" = true /\
  hexToUuid (uuidToHex "F55585E1-0C19-4588-832D-369CFA005640") = Sample.uuid /\
  is_lower_uuid "F55585E1-0C19-4588-832D-369CFA005640" = false /\
  is_uuid Sample.uuid = true /\ hexToUuid (uuidToHex Sample.uuid) = Sample.uuid.
Proof.
  assert (HU : is_uuid "F55585E1-0C19-4588-832D-369CFA005640" = true) by (vm_compute; reflexivity).
  assert (HL : is_uuid Sample.uuid = true) by (vm_compute; reflexivity).
  destruct (uuid_roundtrip_lower _ HU) as [RU _].
  destruct (uuid_roundtrip_lower _ HL) as [_ [_ RL]].
  split; [exact HU|]. split; [rewrite RU; vm_compute; reflexivity|].
  split; [vm_compute; reflexivity|]. split; [exact HL|].
  apply RL. vm_compute. reflexivity.
Defined.

(* ================================================================== *)
(** * Further properties of the code *)

(** ** Submission and retry *)

Lemma count_writes_app (a b : list Action) :
  count_writes (a ++ b) = (count_writes a + count_writes b)%nat.
Proof. unfold count_writes. rewrite filter_app, length_app. reflexivity. Qed.

Lemma classify_reject_fulfill_spec (m : string) :
  (is_conflict_text m -> classify_reject_fulfill (mkErr EError m) = PastSequenceError) /\
  (~ is_conflict_text m -> classify_reject_fulfill (mkErr EError m) = mkErr EError m).
Proof.
  unfold classify_reject_fulfill, is_conflict_text. cbn [e_message].
  destruct (contains "replacement transaction underpriced" m) eqn:E1;
  destruct (contains "known transaction" m) eqn:E2; split; intros H; try reflexivity;
  try (exfalso; apply H; tauto); destruct H; discriminate.
Qed.

(** A node answer to one attempt, seen through [_fulfillCondition] or
    [_rejectIncomingTransfer] with a bound handle and contract: one call,
    one network write, and the answer classified. *)
Lemma submit_attempt (op : TxOp) (pl : Plugin) (h : nat) (c : Contract) (t d : Z) (o : NodeOutcome) :
  handle pl = Some h -> p_contract pl = Some c ->
  (let '(acts, r, t') := Transaction_call op pl t (d, o) in
   (ATxCall op (handle pl) t :: acts, map_error classify_reject_fulfill r, t')) =
  ([ATxCall op (Some h) t; ANetWrite op h t],
   match o with
   | NodeAccept => Ret tt
   | NodeReject m => Throw (classify_reject_fulfill (mkErr EError m))
   end, t + d).
Proof.
  intros Hh Hc. unfold Transaction_call. rewrite Hc, Hh. destruct o; reflexivity.
Qed.

(** X1. Through [_fulfillCondition] and [_rejectIncomingTransfer], a node
    rejection whose text contains "replacement transaction underpriced"
    or "known transaction" becomes a [PastSequenceError]; any other
    rejection reaches the caller unchanged; an acceptance resolves. *)
Theorem attempt_classification (pl : Plugin) (h : nat) (c : Contract) (t d : Z) (m : string) :
  handle pl = Some h -> p_contract pl = Some c ->
  (is_conflict_text m ->
   snd (fst (_fulfillCondition pl t (d, NodeReject m))) = Throw PastSequenceError /\
   snd (fst (_rejectIncomingTransfer pl t (d, NodeReject m))) = Throw PastSequenceError) /\
  (~ is_conflict_text m ->
   snd (fst (_fulfillCondition pl t (d, NodeReject m))) = Throw (mkErr EError m) /\
   snd (fst (_rejectIncomingTransfer pl t (d, NodeReject m))) = Throw (mkErr EError m)) /\
  snd (fst (_fulfillCondition pl t (d, NodeAccept))) = Ret tt /\
  snd (fst (_rejectIncomingTransfer pl t (d, NodeAccept))) = Ret tt.
Proof.
  intros Hh Hc. unfold _fulfillCondition, _rejectIncomingTransfer.
  rewrite !(submit_attempt _ pl h c t d _ Hh Hc). cbn.
  destruct (classify_reject_fulfill_spec m) as [Hyes Hno].
  split; [intros H; rewrite (Hyes H); split; reflexivity|].
  split; [intros H; rewrite (Hno H); split; reflexivity|].
  split; reflexivity.
Qed.

(** X2. Through [sendTransfer] on a plugin holding a handle, only a
    rejection containing "replacement transaction underpriced" becomes a
    [PastSequenceError]; every other rejection text, "known transaction"
    included, reaches the caller unchanged. *)
Theorem sendTransfer_classification (pl : Plugin) (h : nat) (c : Contract) (t d : Z) (m : string) :
  handle pl = Some h -> p_contract pl = Some c ->
  (contains "replacement transaction underpriced" m = true ->
   snd (fst (sendTransfer pl t (d, NodeReject m))) = Throw PastSequenceError) /\
  (contains "replacement transaction underpriced" m = false ->
   snd (fst (sendTransfer pl t (d, NodeReject m))) = Throw (mkErr EError m)) /\
  count_writes (fst (fst (sendTransfer pl t (d, NodeReject m)))) = 1%nat.
Proof.
  intros Hh Hc.
  assert (Hgate : negb (truthy (p_web3 pl)) && negb (truthy (p_extWeb3 pl)) = false).
  { unfold handle in Hh. destruct (p_web3 pl); [reflexivity|]. rewrite Hh. reflexivity. }
  unfold sendTransfer, Transaction_call. rewrite Hgate, Hc, Hh. cbn.
  unfold classify_send. cbn [e_message].
  split; [intros E; rewrite E; reflexivity|].
  split; [intros E; rewrite E; reflexivity|reflexivity].
Qed.

Section RetryFacts.
Variable attempt : Plugin -> Z -> Z * NodeOutcome -> list Action * JsResult unit * Z.
Variable pl : Plugin.
Variable d : Z.
Hypothesis attempt_conflict : forall t m, is_conflict_text m ->
  exists acts t', attempt pl t (d, NodeReject m) = (acts, Throw PastSequenceError, t') /\
                  count_writes acts = 1%nat.
Hypothesis attempt_accept : forall t,
  exists acts t', attempt pl t (d, NodeAccept) = (acts, Ret tt, t') /\ count_writes acts = 1%nat.

Lemma retry_loop_converges (msgs : list string) (t : Z) :
  Forall is_conflict_text msgs ->
  snd (retry_loop attempt pl t (map (fun m => (d, NodeReject m)) msgs ++ [(d, NodeAccept)])) = Done /\
  count_writes (fst (retry_loop attempt pl t (map (fun m => (d, NodeReject m)) msgs ++ [(d, NodeAccept)])))
    = S (length msgs).
Proof.
  revert t. induction msgs as [|m msgs IH]; intros t Hall; cbn [map List.app retry_loop].
  - destruct (attempt_accept t) as (acts & t' & E & W). rewrite E. cbn. auto.
  - inversion Hall as [|? ? Hm Hrest]; subst.
    destruct (attempt_conflict t m Hm) as (acts & t' & E & W). rewrite E. cbn.
    destruct (IH t' Hrest) as [IH1 IH2].
    destruct (retry_loop attempt pl t' _) as [acts' o]. cbn in *.
    split; [exact IH1|]. unfold count_writes in *. rewrite filter_app, length_app. cbn.
    rewrite W, IH2. reflexivity.
Qed.
End RetryFacts.

(** X3. With a bound handle and contract, [fulfillCondition] and
    [rejectIncomingTransfer] answered by any number [n] of
    sequence-conflict rejections and then an acceptance resolve, after
    exactly [n + 1] network submissions. *)
Theorem retry_converges (pl : Plugin) (h : nat) (c : Contract) (t d : Z) (msgs : list string) :
  handle pl = Some h -> p_contract pl = Some c -> Forall is_conflict_text msgs ->
  let resps := (map (fun m => (d, NodeReject m)) msgs ++ [(d, NodeAccept)])%list in
  snd (fulfillCondition pl t resps) = Done /\
  count_writes (fst (fulfillCondition pl t resps)) = S (length msgs) /\
  snd (rejectIncomingTransfer pl t resps) = Done /\
  count_writes (fst (rejectIncomingTransfer pl t resps)) = S (length msgs).
Proof.
  intros Hh Hc Hall resps.
  assert (Hconf : forall op t0 m, is_conflict_text m ->
    exists acts t', (let '(acts, r, t') := Transaction_call op pl t0 (d, NodeReject m) in
                     (ATxCall op (handle pl) t0 :: acts, map_error classify_reject_fulfill r, t'))
                    = (acts, Throw PastSequenceError, t') /\ count_writes acts = 1%nat).
  { intros op t0 m Hm. rewrite (submit_attempt op pl h c t0 d _ Hh Hc).
    rewrite (proj1 (classify_reject_fulfill_spec m) Hm). eauto. }
  assert (Hacc : forall op t0,
    exists acts t', (let '(acts, r, t') := Transaction_call op pl t0 (d, NodeAccept) in
                     (ATxCall op (handle pl) t0 :: acts, map_error classify_reject_fulfill r, t'))
                    = (acts, Ret tt, t') /\ count_writes acts = 1%nat).
  { intros op t0. rewrite (submit_attempt op pl h c t0 d _ Hh Hc). eauto. }
  destruct (retry_loop_converges _fulfillCondition pl d (Hconf OpFulfillTransfer)
              (Hacc OpFulfillTransfer) msgs t Hall) as [Hf1 Hf2].
  destruct (retry_loop_converges _rejectIncomingTransfer pl d (Hconf OpAbortTransfer)
              (Hacc OpAbortTransfer) msgs t Hall) as [Hr1 Hr2].
  repeat split; assumption.
Qed.

(** X4. A first rejection whose text is not a sequence conflict ends
    [fulfillCondition] and [rejectIncomingTransfer] at once with that
    rejection, after a single network submission, whatever the node would
    have answered next. *)
Theorem retry_stops_on_other_error (pl : Plugin) (h : nat) (c : Contract) (t d : Z) (m : string)
  (rest : list (Z * NodeOutcome)) :
  handle pl = Some h -> p_contract pl = Some c -> ~ is_conflict_text m ->
  fulfillCondition pl t ((d, NodeReject m) :: rest) =
    ([ATxCall OpFulfillTransfer (Some h) t; ANetWrite OpFulfillTransfer h t], Failed (mkErr EError m)) /\
  rejectIncomingTransfer pl t ((d, NodeReject m) :: rest) =
    ([ATxCall OpAbortTransfer (Some h) t; ANetWrite OpAbortTransfer h t], Failed (mkErr EError m)).
Proof.
  intros Hh Hc Hm. unfold fulfillCondition, rejectIncomingTransfer. cbn [retry_loop].
  unfold _fulfillCondition, _rejectIncomingTransfer.
  rewrite !(submit_attempt _ pl h c t d _ Hh Hc).
  rewrite (proj2 (classify_reject_fulfill_spec m) Hm). split; reflexivity.
Qed.

(** X5. Without any node handle, [fulfillCondition] and
    [rejectIncomingTransfer] fail on their first attempt with a TypeError,
    send nothing to the network and do not retry. *)
Theorem retry_unconnected_fails_fast (pl : Plugin) (t : Z) (r : Z * NodeOutcome)
  (rest : list (Z * NodeOutcome)) :
  p_web3 pl = None -> p_extWeb3 pl = None ->
  (exists e, e_class e = ETypeError /\
     fulfillCondition pl t (r :: rest) = ([ATxCall OpFulfillTransfer None t], Failed e)) /\
  (exists e, e_class e = ETypeError /\
     rejectIncomingTransfer pl t (r :: rest) = ([ATxCall OpAbortTransfer None t], Failed e)).
Proof.
  intros Hw He.
  assert (Hh : handle pl = None) by (unfold handle; rewrite Hw; exact He).
  unfold fulfillCondition, rejectIncomingTransfer. cbn [retry_loop].
  unfold _fulfillCondition, _rejectIncomingTransfer, Transaction_call. destruct r as [d o].
  rewrite Hh. destruct (p_contract pl); cbn; split; eexists; (split; [|reflexivity]); reflexivity.
Qed.

(** ** Connection lifecycle *)

(** X6. In owned mode ([extWeb3] unset), a first [connect] opens one
    [Web3] on the active endpoint, binds the contract, registers the four
    subscriptions, starts the probe and emits "connect"; a second
    [connect] then does nothing at all. *)
Theorem connect_owned_once (cs : Conn) (store store' : Contract) :
  p_extWeb3 (c_pl cs) = None -> p_web3 (c_pl cs) = None ->
  let '(cs1, acts1, evs1) := connect cs store in
  acts1 = [LNewWeb3 (p_provider (c_pl cs))] /\ evs1 = [mkEvent "connect" []] /\
  p_web3 (c_pl cs1) = Some (c_next_web3 cs) /\ p_contract (c_pl cs1) = Some store /\
  c_subscriptions cs1 = (c_subscriptions cs + 4)%nat /\ c_isProcessing cs1 = true /\
  connect cs1 store' = (cs1, [], []).
Proof.
  intros He Hw. unfold connect at 1. rewrite He, Hw. cbn. unfold _heartbeat. cbn.
  rewrite He. destruct (c_isProcessing cs); cbn;
    (repeat split; [];
     unfold connect; cbn; rewrite He; reflexivity).
Qed.

Lemma heartbeat_timer_inv (cs : Conn) : timer_inv cs -> timer_inv (_heartbeat cs).
Proof.
  unfold timer_inv, _heartbeat. intros H.
  destruct (truthy (p_extWeb3 (c_pl cs))); [exact H|].
  destruct (c_isProcessing cs) eqn:E; [rewrite E; exact H|]. cbn. rewrite H. reflexivity.
Qed.

Lemma lifecycle_step_timer_inv (cs : Conn) (op : LifecycleOp) :
  timer_inv cs -> timer_inv (fst (lifecycle_step cs op)).
Proof.
  intros H. destruct op as [store| |ext]; cbn.
  - unfold connect.
    destruct (p_extWeb3 (c_pl cs)); [|destruct (p_web3 (c_pl cs))]; cbn;
      try exact H; apply heartbeat_timer_inv; exact H.
  - unfold disconnect. destruct (p_web3 (c_pl cs)); exact H.
  - exact H.
Qed.

Lemma run_lifecycle_timer_inv (cs : Conn) (ops : list LifecycleOp) :
  timer_inv cs -> timer_inv (fst (run_lifecycle cs ops)).
Proof.
  revert cs. induction ops as [|op ops IH]; intros cs H; [exact H|].
  cbn [run_lifecycle].
  pose proof (lifecycle_step_timer_inv cs op H) as H1.
  destruct (lifecycle_step cs op) as [cs1 evs1]. cbn in H1.
  pose proof (IH cs1 H1) as H2.
  destruct (run_lifecycle cs1 ops) as [cs2 evs2]. exact H2.
Qed.

(** X7. Whatever sequence of [connect], [disconnect] and [setWeb3] calls
    a fresh instance receives, the health-probe interval is started at
    most once, and exactly when [isProcessing] is set. *)
Theorem probe_started_at_most_once (pl : Plugin) (ops : list LifecycleOp) :
  let cs := fst (run_lifecycle (fresh_conn pl) ops) in
  c_timers cs = (if c_isProcessing cs then 1 else 0)%nat /\ (c_timers cs <= 1)%nat.
Proof.
  intros cs. pose proof (run_lifecycle_timer_inv (fresh_conn pl) ops eq_refl) as H.
  fold cs in H. unfold timer_inv in H. split; [exact H|]. rewrite H.
  destruct (c_isProcessing cs); lia.
Qed.

Lemma connect_external_step (cs : Conn) (x : nat) (store : Contract) :
  p_extWeb3 (c_pl cs) = Some x ->
  connect cs store =
    (mkConn (set_contract (c_pl cs) store) (c_isProcessing cs) (c_timers cs)
            (c_subscriptions cs + 4) (c_next_web3 cs), [], [mkEvent "connect" []]).
Proof.
  intros He. unfold connect. rewrite He. cbn. unfold _heartbeat. cbn. rewrite He. reflexivity.
Qed.

Lemma run_connect_external (cs : Conn) (x : nat) (store : Contract) (n : nat) :
  p_extWeb3 (c_pl cs) = Some x ->
  run_lifecycle cs (repeat (OpConnect store) (S n)) =
    (mkConn (set_contract (c_pl cs) store) (c_isProcessing cs) (c_timers cs)
            (c_subscriptions cs + 4 * S n) (c_next_web3 cs),
     repeat (mkEvent "connect" []) (S n)).
Proof.
  revert cs. induction n as [|n IH]; intros cs He.
  - cbn [repeat run_lifecycle lifecycle_step]. rewrite (connect_external_step cs x store He).
    cbn. repeat f_equal; lia.
  - change (repeat (OpConnect store) (S (S n)))
      with (OpConnect store :: repeat (OpConnect store) (S n)).
    cbn [run_lifecycle lifecycle_step]. rewrite (connect_external_step cs x store He).
    rewrite IH by exact He. cbn. f_equal. f_equal; try reflexivity; lia.
Qed.

(** X8. With an external handle set through [setWeb3], [connect] never
    opens a link or starts the probe, but every call rebinds the contract,
    registers four more subscriptions and emits "connect": [n] calls leave
    [4 n] extra subscriptions and [n] "connect" events. *)
Theorem connect_external_repeats (cs : Conn) (x : nat) (store : Contract) (n : nat) :
  p_extWeb3 (c_pl cs) = Some x -> (0 < n)%nat ->
  snd (fst (connect cs store)) = [] /\
  let '(cs', evs) := run_lifecycle cs (repeat (OpConnect store) n) in
  evs = repeat (mkEvent "connect" []) n /\
  c_subscriptions cs' = (c_subscriptions cs + 4 * n)%nat /\
  c_timers cs' = c_timers cs /\ c_isProcessing cs' = c_isProcessing cs /\
  p_web3 (c_pl cs') = p_web3 (c_pl cs) /\ p_contract (c_pl cs') = Some store /\
  isConnected (c_pl cs') = true.
Proof.
  intros He Hn. rewrite (connect_external_step cs x store He). split; [reflexivity|].
  destruct n as [|n]; [lia|]. rewrite (run_connect_external cs x store n He). cbn.
  repeat split. unfold isConnected. cbn. rewrite He, orb_true_r. reflexivity.
Qed.

(** X9. [disconnect] on an owned link closes it and emits "disconnect";
    a second call does nothing. The contract stays bound and the probe
    keeps running, so [isConnected] is false, a settlement fails with a
    TypeError on the [null] handle without reaching the network, and the
    next probe tick opens a provider on the other endpoint. *)
Theorem disconnect_once (cs : Conn) (w : nat) (c : Contract) :
  p_web3 (c_pl cs) = Some w -> p_extWeb3 (c_pl cs) = None -> p_contract (c_pl cs) = Some c ->
  let '(cs1, acts1, evs1) := disconnect cs in
  acts1 = [LCloseLink w] /\ evs1 = [mkEvent "disconnect" []] /\
  disconnect cs1 = (cs1, [], []) /\ isConnected (c_pl cs1) = false /\
  p_contract (c_pl cs1) = Some c /\
  c_isProcessing cs1 = c_isProcessing cs /\ c_timers cs1 = c_timers cs /\
  (forall t r rest, fulfillCondition (c_pl cs1) t (r :: rest) =
     ([ATxCall OpFulfillTransfer None t],
      Failed (mkErr ETypeError "Cannot read properties of null (reading 'eth')"))) /\
  (forall l, snd (probe_tick cs1 l) = [PCreateProvider (flip_provider (c_pl cs))]).
Proof.
  intros Hw He Hc. unfold disconnect at 1. rewrite Hw.
  split; [reflexivity|]. split; [reflexivity|]. split; [reflexivity|].
  split; [unfold isConnected; cbn; rewrite He; reflexivity|].
  split; [exact Hc|]. split; [reflexivity|]. split; [reflexivity|]. split.
  - intros t [d o] rest. unfold fulfillCondition. cbn [retry_loop].
    unfold _fulfillCondition, Transaction_call, handle. cbn. rewrite Hc, He. reflexivity.
  - intros l. unfold probe_tick, heartbeat_tick, flip_provider. cbn. reflexivity.
Qed.


(** ** Codecs of the escrow-store arguments *)

Lemma b64_value_char_table :
  forallb (fun n => match b64_value (b64_char (Z.of_nat n)) with
                    | Some v => v =? Z.of_nat n | None => false end) (seq 0 64) = true.
Proof. vm_compute. reflexivity. Qed.

Lemma b64_value_char (v : Z) : 0 <= v < 64 -> b64_value (b64_char v) = Some v.
Proof.
  intros Hv. pose proof (proj1 (forallb_forall _ _) b64_value_char_table (Z.to_nat v)) as H.
  cbv beta in H. rewrite Z2Nat.id in H by lia.
  specialize (H (proj2 (in_seq 64 0 (Z.to_nat v)) ltac:(lia))).
  destruct (b64_value (b64_char v)) as [w|]; [|discriminate H].
  apply Z.eqb_eq in H. subst w. reflexivity.
Qed.

Lemma sextet_table (f g : Z -> Z -> Z) :
  forallb (fun hi => forallb (fun lo => f (Z.of_nat hi) (Z.of_nat lo) =? g (Z.of_nat hi) (Z.of_nat lo))
                       (seq 0 64)) (seq 0 64) = true ->
  forall hi lo, 0 <= hi < 64 -> 0 <= lo < 64 -> f hi lo = g hi lo.
Proof.
  intros T hi lo Hhi Hlo.
  pose proof (proj1 (forallb_forall _ _) T (Z.to_nat hi)
                (proj2 (in_seq 64 0 (Z.to_nat hi)) ltac:(lia))) as T1.
  cbv beta in T1.
  pose proof (proj1 (forallb_forall _ _) T1 (Z.to_nat lo)
                (proj2 (in_seq 64 0 (Z.to_nat lo)) ltac:(lia))) as T2.
  cbv beta in T2. rewrite !Z2Nat.id in T2 by lia. apply Z.eqb_eq in T2. exact T2.
Qed.

Lemma b64_byte1_arith (hi lo : Z) : 0 <= hi < 64 -> 0 <= lo < 64 ->
  b64_byte1 hi lo = 4 * hi + lo / 16.
Proof.
  apply (sextet_table b64_byte1 (fun hi lo => 4 * hi + lo / 16)). vm_compute. reflexivity.
Qed.

Lemma b64_byte2_arith (hi lo : Z) : 0 <= hi < 64 -> 0 <= lo < 64 ->
  b64_byte2 hi lo = 16 * (hi mod 16) + lo / 4.
Proof.
  apply (sextet_table b64_byte2 (fun hi lo => 16 * (hi mod 16) + lo / 4)). vm_compute. reflexivity.
Qed.

Lemma b64_byte3_arith (hi lo : Z) : 0 <= hi < 64 -> 0 <= lo < 64 ->
  b64_byte3 hi lo = 64 * (hi mod 4) + lo.
Proof.
  apply (sextet_table b64_byte3 (fun hi lo => 64 * (hi mod 4) + lo)). vm_compute. reflexivity.
Qed.

Lemma b64_group3 (a b c : Z) : 0 <= a < 256 -> 0 <= b < 256 -> 0 <= c < 256 ->
  let n := a * 65536 + b * 256 + c in
  b64_byte1 (n / 262144) ((n / 4096) mod 64) = a /\
  b64_byte2 ((n / 4096) mod 64) ((n / 64) mod 64) = b /\
  b64_byte3 ((n / 64) mod 64) (n mod 64) = c.
Proof.
  intros Ha Hb Hc n.
  assert (Da : a = 4 * (a / 4) + a mod 4) by (apply Z.div_mod; lia).
  assert (Db : b = 16 * (b / 16) + b mod 16) by (apply Z.div_mod; lia).
  assert (Dc : c = 64 * (c / 64) + c mod 64) by (apply Z.div_mod; lia).
  pose proof (Z.mod_pos_bound a 4 ltac:(lia)). pose proof (Z.mod_pos_bound b 16 ltac:(lia)).
  pose proof (Z.mod_pos_bound c 64 ltac:(lia)).
  set (a1 := a / 4) in *. set (a0 := a mod 4) in *. set (b1 := b / 16) in *.
  set (b0 := b mod 16) in *. set (c1 := c / 64) in *. set (c0 := c mod 64) in *.
  assert (0 <= a1 < 64) by lia. assert (0 <= b1 < 16) by lia. assert (0 <= c1 < 4) by lia.
  assert (E1 : n / 262144 = a1)
    by (symmetry; apply (Z.div_unique_pos _ _ _ (a0 * 65536 + b * 256 + c)); subst n; lia).
  assert (E2 : (n / 4096) mod 64 = 16 * a0 + b1).
  { replace (n / 4096) with (64 * a1 + (16 * a0 + b1))
      by (apply (Z.div_unique_pos _ _ _ (b0 * 256 + c)); subst n; lia).
    symmetry. apply (Z.mod_unique_pos _ _ a1); lia. }
  assert (E3 : (n / 64) mod 64 = 4 * b0 + c1).
  { replace (n / 64) with (64 * (64 * a1 + 16 * a0 + b1) + (4 * b0 + c1))
      by (apply (Z.div_unique_pos _ _ _ c0); subst n; lia).
    symmetry. apply (Z.mod_unique_pos _ _ (64 * a1 + 16 * a0 + b1)); lia. }
  assert (E4 : n mod 64 = c0).
  { symmetry. apply (Z.mod_unique_pos _ _ (64 * (64 * a1 + 16 * a0 + b1) + (4 * b0 + c1)));
      subst n; lia. }
  rewrite E1, E2, E3, E4.
  rewrite b64_byte1_arith, b64_byte2_arith, b64_byte3_arith by lia.
  replace ((16 * a0 + b1) / 16) with a0
    by (apply (Z.div_unique_pos _ _ _ b1); lia).
  replace ((16 * a0 + b1) mod 16) with b1
    by (apply (Z.mod_unique_pos _ _ a0); lia).
  replace ((4 * b0 + c1) / 4) with b0
    by (apply (Z.div_unique_pos _ _ _ c1); lia).
  replace ((4 * b0 + c1) mod 4) with c1
    by (apply (Z.mod_unique_pos _ _ b0); lia).
  split; [|split]; lia.
Qed.

Lemma b64_sextets_char (v : Z) (s : string) :
  0 <= v < 64 -> b64_sextets (String (b64_char v) s) = v :: b64_sextets s.
Proof. intros Hv. cbn [b64_sextets]. rewrite (b64_value_char v Hv). reflexivity. Qed.

(** Node's base64 decoder reads back what [base64url] writes. *)
Lemma base64_decode_base64url (bs : list Z) :
  Forall (fun b => 0 <= b < 256) bs -> base64_decode (base64url bs) = bs.
Proof.
  unfold base64_decode.
  assert (Hsx : forall n, 0 <= n < 16777216 ->
            0 <= n / 262144 < 64 /\ 0 <= (n / 4096) mod 64 < 64 /\
            0 <= (n / 64) mod 64 < 64 /\ 0 <= n mod 64 < 64).
  { intros n Hn.
    split; [split; [apply Z.div_pos; lia|apply Z.div_lt_upper_bound; lia]|].
    split; [apply Z.mod_pos_bound; lia|].
    split; apply Z.mod_pos_bound; lia. }
  assert (Main : forall k l, (length l <= k)%nat -> Forall (fun b => 0 <= b < 256) l ->
            sextets_to_bytes (b64_sextets (base64url l)) = l).
  { induction k as [|k IH]; intros l Hl Hall.
    - destruct l; [reflexivity|cbn in Hl; lia].
    - destruct l as [|a [|b [|c rest]]]; [reflexivity| | |].
      + inversion Hall as [|? ? Ha _]; subst.
        destruct (Hsx (a * 65536) ltac:(lia)) as (S1 & S2 & _ & _).
        cbn [base64url]. rewrite !b64_sextets_char by assumption. cbn [b64_sextets sextets_to_bytes].
        destruct (b64_group3 a 0 0 Ha ltac:(lia) ltac:(lia)) as (B1 & _ & _).
        rewrite !Z.mul_0_l, !Z.add_0_r in B1. rewrite B1. reflexivity.
      + inversion Hall as [|? ? Ha Hall']; subst. inversion Hall' as [|? ? Hb _]; subst.
        destruct (Hsx (a * 65536 + b * 256) ltac:(lia)) as (S1 & S2 & S3 & _).
        cbn [base64url]. rewrite !b64_sextets_char by assumption. cbn [b64_sextets sextets_to_bytes].
        destruct (b64_group3 a b 0 Ha Hb ltac:(lia)) as (B1 & B2 & _).
        rewrite !Z.add_0_r in B1, B2. rewrite B1, B2. reflexivity.
      + inversion Hall as [|? ? Ha Hall1]; subst. inversion Hall1 as [|? ? Hb Hall2]; subst.
        inversion Hall2 as [|? ? Hc Hrest]; subst.
        destruct (Hsx (a * 65536 + b * 256 + c) ltac:(lia)) as (S1 & S2 & S3 & S4).
        cbn [base64url]. rewrite !b64_sextets_char by assumption. cbn [sextets_to_bytes].
        destruct (b64_group3 a b c Ha Hb Hc) as (B1 & B2 & B3).
        rewrite B1, B2, B3, (IH rest) by (cbn in Hl; lia || assumption). reflexivity. }
  intros Hall. exact (Main (length bs) bs (le_n _) Hall).
Qed.

Lemma hexval_range (c : ascii) (v : Z) : hexval c = Some v -> 0 <= v < 16.
Proof.
  unfold hexval. set (n := Z.of_nat (nat_of_ascii c)).
  destruct ((48 <=? n) && (n <=? 57)) eqn:E1;
    [intros H; injection H as <-; apply andb_prop in E1 as [A B];
     apply Z.leb_le in A; apply Z.leb_le in B; lia|].
  destruct ((97 <=? n) && (n <=? 102)) eqn:E2;
    [intros H; injection H as <-; apply andb_prop in E2 as [A B];
     apply Z.leb_le in A; apply Z.leb_le in B; lia|].
  destruct ((65 <=? n) && (n <=? 70)) eqn:E3;
    [intros H; injection H as <-; apply andb_prop in E3 as [A B];
     apply Z.leb_le in A; apply Z.leb_le in B; lia|].
  discriminate.
Qed.

Lemma hex_to_bytes_range (s : string) : Forall (fun b => 0 <= b < 256) (hex_to_bytes s).
Proof.
  assert (H : forall s, Forall (fun b => 0 <= b < 256) (hex_to_bytes s) /\
                        forall a, Forall (fun b => 0 <= b < 256) (hex_to_bytes (String a s))).
  { induction s0 as [|b s0 [IH1 IH2]].
    - split; [constructor|intros a; constructor].
    - split; [exact (IH2 b)|]. intros a. cbn [hex_to_bytes].
      destruct (hexval a) as [x|] eqn:Ex; [|constructor].
      destruct (hexval b) as [y|] eqn:Ey; [|constructor].
      apply hexval_range in Ex. apply hexval_range in Ey.
      constructor; [lia|exact IH1]. }
  exact (proj1 (H s)).
Qed.

Lemma hex_base64_roundtrip (g : string) (k : nat) :
  all_chars is_lower_hex_digit g = true -> String.length g = (2 * k)%nat ->
  bytes_hex (base64_decode (base64url (hex_to_bytes g))) = g.
Proof.
  intros Hg Hl. rewrite base64_decode_base64url by apply hex_to_bytes_range.
  exact (proj1 (hex_bytes_roundtrip k g Hg Hl)).
Qed.

(** The C6 round trip, for the callers of [hexToUuid]. *)
Lemma hexToUuid_uuidToHex (u : string) :
  is_lower_uuid u = true -> hexToUuid (uuidToHex u) = u.
Proof.
  intros H.
  destruct (lower_uuid_split u H)
    as (g1 & g2 & g3 & g4 & g5 & H1 & H2 & H3 & H4 & H5 & L1 & L2 & L3 & L4 & L5 & ->).
  unfold hexToUuid, uuidToHex.
  rewrite !remove_dashes_app. change (remove_dashes "-") with EmptyString.
  cbn [drop String.append].
  rewrite (remove_dashes_lower_hex g1 H1), (remove_dashes_lower_hex g2 H2),
    (remove_dashes_lower_hex g3 H3), (remove_dashes_lower_hex g4 H4),
    (remove_dashes_lower_hex g5 H5).
  rewrite (hex_to_bytes_app 4 g1) by assumption.
  rewrite (hex_to_bytes_app 2 g2) by assumption.
  rewrite (hex_to_bytes_app 2 g3) by assumption.
  rewrite (hex_to_bytes_app 2 g4) by assumption.
  destruct (hex_bytes_roundtrip 4 g1 H1 L1) as [R1 N1].
  destruct (hex_bytes_roundtrip 2 g2 H2 L2) as [R2 N2].
  destruct (hex_bytes_roundtrip 2 g3 H3 L3) as [R3 N3].
  destruct (hex_bytes_roundtrip 2 g4 H4 L4) as [R4 N4].
  destruct (hex_bytes_roundtrip 6 g5 H5 L5) as [R5 N5].
  rewrite unparse_groups by assumption.
  rewrite R1, R2, R3, R4, R5. reflexivity.
Qed.

(** X11. A Transfer read back from the store through [getTransfer], for
    a canonical lower-case UUID, a condition and an ILP packet in
    lower-case hex, is passed on by [sendTransfer] to [createTransfer]
    with the store's own values: the money id, the amount, the condition,
    the ledger id, the packet and the direction. *)
Theorem createTransfer_args_roundtrip (pl : Plugin) (c : Contract) (u : string)
  (raw : RawTransfer) (moneyId g p : string) (kg kp : nat) (t : Transfer) :
  is_lower_uuid u = true ->
  c_getTransfer c (uuidToHex u) = Ret raw -> r_from raw <> zero_address ->
  c_getMoneyIdByTransferId c (uuidToHex u) = Ret moneyId ->
  c_getIlpPacket c (uuidToHex u) = Ret ("0x" ++ p) ->
  r_condition raw = "0x" ++ g ->
  all_chars is_lower_hex_digit g = true -> String.length g = (2 * kg)%nat ->
  all_chars is_lower_hex_digit p = true -> String.length p = (2 * kp)%nat ->
  getTransfer pl c u = Ret t ->
  createTransfer_args t =
    mkCreateArgs (Some moneyId) (r_amount raw) (r_condition raw) (uuidToHex u) ("0x" ++ p)
                 (directionToName (r_direction raw)).
Proof.
  intros Hu Hget Hfrom Hm Hp Hc Hg Hlg Hpg Hlp Ht.
  unfold getTransfer, _getRddnTransfer in Ht. rewrite Hget in Ht. cbn [bind] in Ht.
  apply String.eqb_neq in Hfrom. rewrite Hfrom, Hm, Hp in Ht. cbn [bind] in Ht.
  destruct (toISOString (r_expires raw * 1000)) as [iso|e]; [|discriminate Ht].
  cbn [bind] in Ht. injection Ht as <-.
  unfold createTransfer_args, conditionToHex, ilpToData. cbn [t_custom t_amount t_id t_executionCondition t_ilp].
  rewrite Hc. cbn [drop String.append]. rewrite (hex_base64_roundtrip g kg Hg Hlg).
  rewrite (hex_base64_roundtrip p kp Hpg Hlp). rewrite (hexToUuid_uuidToHex u Hu).
  reflexivity.
Qed.


(** X12. For a Fulfill notification carrying a fulfillment in lower-case
    hex, every event the handler emits with a second argument carries
    there the base64url fulfillment, and [fulfillmentToHex] (the encoding
    [fulfillCondition] sends back to the store) turns it into the
    notification's hex again. *)
Theorem fulfill_notification_fulfillment (pl : Plugin) (c : Contract) (u g : string) (k : nat)
  (evs : list Event) :
  all_chars is_lower_hex_digit g = true -> String.length g = (2 * k)%nat ->
  on_notification pl c (NFulfill u ("0x" ++ g)) = Ret evs ->
  forall e a, In e evs -> nth_error (ev_args e) 1 = Some a ->
  exists v, a = AValue (Some v) /\ fulfillmentToHex v = "0x" ++ g.
Proof.
  intros Hg Hl Hrun e a Hin Ha.
  assert (Hv : fulfillmentToHex (base64url (hex_to_bytes g)) = "0x" ++ g).
  { unfold fulfillmentToHex, conditionToHex. rewrite (hex_base64_roundtrip g k Hg Hl). reflexivity. }
  unfold on_notification in Hrun.
  destruct (_getRddnTransfer c (p_prefix pl) u) as [t|err]; [|discriminate Hrun].
  cbn [bind drop String.append] in Hrun. injection Hrun as <-.
  unfold _processUpdate in Hin.
  destruct (String.eqb (t_to t) (getAccount pl)); [|destruct (String.eqb (t_from t) (getAccount pl))];
    cbn [set_ledger t_state] in Hin;
    (destruct (js_str_eq (t_state t) "fulfill"); destruct Hin as [<-|[]];
     cbn in Ha; [injection Ha as <-; eauto|discriminate Ha]).
Qed.

(** X13. [getRequests] maps the store's ledger ids of canonical
    lower-case UUIDs back to those UUIDs, and passes a failed query on. *)
Theorem getRequests_roundtrip (us : list string) (e : JsError) :
  Forall (fun u => is_lower_uuid u = true) us ->
  getRequests (Ret (map uuidToHex us)) = Ret us /\ getRequests (Throw e) = Throw e.
Proof.
  intros Hall. split; [|reflexivity]. unfold getRequests. cbn [bind].
  rewrite length_map. destruct us as [|u us]; [reflexivity|]. cbn [Nat.eqb length].
  rewrite map_map. f_equal. rewrite <- (map_id (u :: us)) at 2. apply map_ext_in.
  intros x Hx. apply hexToUuid_uuidToHex. rewrite Forall_forall in Hall. exact (Hall x Hx).
Qed.

(** X14. Whatever the store holds, a Transfer [getTransfer] returns for
    a canonical lower-case UUID carries that UUID as its id, in the
    not-found case as well. *)
Theorem getTransfer_keeps_id (pl : Plugin) (c : Contract) (u : string) (t : Transfer) :
  is_lower_uuid u = true -> getTransfer pl c u = Ret t -> t_id t = u.
Proof.
  intros Hu Ht. unfold getTransfer, _getRddnTransfer in Ht.
  destruct (c_getTransfer c (uuidToHex u)) as [raw|err]; [|discriminate Ht]. cbn [bind] in Ht.
  destruct (String.eqb (r_from raw) zero_address).
  - injection Ht as <-. apply hexToUuid_uuidToHex. exact Hu.
  - destruct (c_getMoneyIdByTransferId c (uuidToHex u)); [|discriminate Ht]. cbn [bind] in Ht.
    destruct (c_getIlpPacket c (uuidToHex u)); [|discriminate Ht]. cbn [bind] in Ht.
    destruct (toISOString (r_expires raw * 1000)); [|discriminate Ht]. cbn [bind] in Ht.
    injection Ht as <-. apply hexToUuid_uuidToHex. exact Hu.
Qed.

(** X15. A notification about an id the store does not hold (zero
    [from] address) makes the plugin emit a single event named "event_"
    (no direction, empty state) carrying the placeholder Transfer,
    whether it is a Fulfill or an Update notification. *)
Theorem not_found_notification_event (pl : Plugin) (c : Contract) (id f : string)
  (raw : RawTransfer) :
  c_getTransfer c id = Ret raw -> r_from raw = zero_address -> getAccount pl <> "" ->
  exists t, t_id t = hexToUuid id /\ t_state t = Some "" /\
    on_notification pl c (NFulfill id f) = Ret [mkEvent "event_" [ATransfer t]] /\
    on_notification pl c (NUpdate id) = Ret [mkEvent "event_" [ATransfer t]].
Proof.
  intros Hget Hz Hacc.
  assert (Hne : String.eqb "" (getAccount pl) = false).
  { apply String.eqb_neq. intros E. apply Hacc. symmetry. exact E. }
  unfold on_notification, _getRddnTransfer. rewrite Hget. cbn [bind].
  rewrite Hz, String.eqb_refl.
  exists (mkTransfer (hexToUuid id) "" "" 0 "" "" "" CustomEmpty (Some "") None None).
  split; [reflexivity|]. split; [reflexivity|].
  split; cbn [bind]; unfold _processUpdate; cbn [t_from t_to t_state]; rewrite Hne; reflexivity.
Qed.

(** X16. [forceEmitPrepare] never resolves to false; it resolves to true
    only for a Transfer both from and to the adapter's own account, and
    then emits one [incoming_prepare] event. Every other transfer it finds
    makes it throw. *)
Theorem forceEmitPrepare_outcomes (pl : Plugin) (c : Contract) (id : string) :
  fst (forceEmitPrepare pl c id) <> Ret false /\
  (fst (forceEmitPrepare pl c id) = Ret true ->
   exists t, getTransfer pl c id = Ret t /\ t_from t = getAccount pl /\ t_to t = getAccount pl /\
     snd (forceEmitPrepare pl c id) = [mkEvent "incoming_prepare" [ATransfer (set_direction t "incoming")]]) /\
  (forall t, getTransfer pl c id = Ret t ->
   (t_from t <> getAccount pl \/ t_to t <> getAccount pl) ->
   forceEmitPrepare pl c id = (Throw (mkErr EReferenceError "_ is not defined"), [])).
Proof.
  unfold forceEmitPrepare, js_or, lodash_includes, lodash_includes_in_scope.
  destruct (getTransfer pl c id) as [t|e]; cbn [bind fst snd].
  - destruct (String.eqb (t_from t) (getAccount pl)) eqn:Ef;
      destruct (String.eqb (t_to t) (getAccount pl)) eqn:Et; cbn [bind fst snd].
    + apply String.eqb_eq in Ef, Et. split; [discriminate|]. split.
      * intros _. exists t. auto.
      * intros t' Ht' [H|H]; injection Ht' as <-; contradiction.
    + split; [discriminate|]. split; [discriminate|].
      intros t' Ht' _. reflexivity.
    + split; [discriminate|]. split; [discriminate|].
      intros t' Ht' _. reflexivity.
    + split; [discriminate|]. split; [discriminate|].
      intros t' Ht' _. reflexivity.
  - split; [discriminate|]. split; [discriminate|]. intros t' Ht'. discriminate Ht'.
Qed.


(** ** [accountToHex] *)

Lemma starts_with_app (p s : string) : starts_with p (p ++ s) = true.
Proof. induction p as [|a p IH]; [reflexivity|]. cbn. rewrite Ascii.eqb_refl, IH. reflexivity. Qed.

Lemma drop_length_app (p s : string) : drop (String.length p) (p ++ s) = s.
Proof. induction p as [|a p IH]; [reflexivity|]. exact IH. Qed.

Lemma str_app_assoc (a b c : string) : (a ++ b) ++ c = a ++ (b ++ c).
Proof. induction a as [|x a IH]; [reflexivity|]. cbn. rewrite IH. reflexivity. Qed.

Lemma str_app_nil (a : string) : a ++ "" = a.
Proof. induction a as [|x a IH]; [reflexivity|]. cbn. rewrite IH. reflexivity. Qed.

Lemma take_hex_app (h s : string) :
  all_chars is_hex_digit h = true -> take_hex (String.length h) (h ++ s) = Some (h, s).
Proof.
  induction h as [|x h IH]; [reflexivity|]. cbn [all_chars]. intros H.
  apply andb_prop in H as [Hx Hh]. cbn [String.length take_hex String.append].
  rewrite Hx, (IH Hh). reflexivity.
Qed.

(** X18. [accountToHex] with the plugin's prefix gives back the address
    of the plugin's own account ([getAccount()]), and that address
    followed by "." for a sub-account; an address followed by one more hex
    digit is refused. *)
Theorem accountToHex_own_account (pl : Plugin) (h rest : string) (d : ascii) :
  p_address pl = "0x" ++ h -> all_chars is_hex_digit h = true -> String.length h = 40%nat ->
  accountToHex (getAccount pl) (p_prefix pl) = Ret (p_address pl) /\
  accountToHex (getAccount pl ++ "." ++ rest) (p_prefix pl) = Ret (p_address pl ++ ".") /\
  (is_hex_digit d = true ->
   accountToHex (getAccount pl ++ String d rest) (p_prefix pl) =
     Throw (mkErr EError "account is not a 40-digit hex number")).
Proof.
  intros Ha Hh Hl. unfold accountToHex, getAccount.
  rewrite !str_app_assoc, !starts_with_app, !drop_length_app. cbn [negb].
  rewrite Ha. unfold match_account_hex. cbn [String.append]. rewrite <- Hl.
  pose proof (take_hex_app h "" Hh) as T0. rewrite str_app_nil in T0.
  split; [rewrite T0; reflexivity|].
  rewrite (take_hex_app h _ Hh). split; [reflexivity|].
  intros Hd. rewrite (take_hex_app h _ Hh).
  destruct (Ascii.eqb d ".") eqn:E.
  - apply Ascii.eqb_eq in E. subst d. discriminate Hd.
  - reflexivity.
Qed.

(** ** Health probe and expiry *)


(** X20. A stored transfer whose expiry lies beyond the range of a
    JavaScript date ([|seconds| > 8.64e12]) cannot be read: the projection
    fails with a RangeError, and a notification about it emits nothing. *)
Theorem expiry_out_of_range (pl : Plugin) (c : Contract) (id f m p : string) (raw : RawTransfer) :
  c_getTransfer c id = Ret raw -> r_from raw <> zero_address ->
  c_getMoneyIdByTransferId c id = Ret m -> c_getIlpPacket c id = Ret p ->
  8640000000000 < Z.abs (r_expires raw) ->
  _getRddnTransfer c (p_prefix pl) id = Throw (mkErr ERangeError "Invalid time value") /\
  on_notification pl c (NFulfill id f) = Throw (mkErr ERangeError "Invalid time value") /\
  on_notification pl c (NUpdate id) = Throw (mkErr ERangeError "Invalid time value").
Proof.
  intros Hget Hfrom Hm Hp Hx.
  assert (Hiso : toISOString (r_expires raw * 1000) = Throw (mkErr ERangeError "Invalid time value")).
  { unfold toISOString. replace (Z.abs (r_expires raw * 1000) >? 8640000000000000) with true
      by (symmetry; apply Z.gtb_lt; lia). reflexivity. }
  assert (H : _getRddnTransfer c (p_prefix pl) id = Throw (mkErr ERangeError "Invalid time value")).
  { unfold _getRddnTransfer. rewrite Hget. cbn [bind].
    apply String.eqb_neq in Hfrom. rewrite Hfrom, Hm, Hp. cbn [bind]. rewrite Hiso. reflexivity. }
  split; [exact H|]. unfold on_notification. rewrite H. split; reflexivity.
Qed.

(* ------------------------------------------------------------------ *)
(** ** Witnesses of the further properties *)

Lemma attempt_classification_witness :
  let c := Sample.store (Sample.raw Sample.self Sample.other 0) in
  let pl := Sample.plugin c in
  handle pl = Some 1%nat /\ p_contract pl = Some c /\
  snd (fst (_fulfillCondition pl 0 (10, NodeReject "nonce too low: known transaction")))
    = Throw PastSequenceError /\
  snd (fst (_rejectIncomingTransfer pl 0 (10, NodeReject "out of gas")))
    = Throw (mkErr EError "out of gas").
Proof.
  intros c pl. split; [reflexivity|]. split; [reflexivity|].
  destruct (attempt_classification pl 1 c 0 10 "nonce too low: known transaction" eq_refl eq_refl)
    as [Hy _].
  destruct (attempt_classification pl 1 c 0 10 "out of gas" eq_refl eq_refl) as [_ [Hn _]].
  split.
  - apply Hy. right. vm_compute. reflexivity.
  - apply Hn. intros [H|H]; vm_compute in H; discriminate H.
Defined.

Lemma sendTransfer_classification_witness :
  let c := Sample.store (Sample.raw Sample.self Sample.other 0) in
  let pl := Sample.plugin c in
  handle pl = Some 1%nat /\ p_contract pl = Some c /\
  snd (fst (sendTransfer pl 0 (10, NodeReject "replacement transaction underpriced")))
    = Throw PastSequenceError /\
  snd (fst (sendTransfer pl 0 (10, NodeReject "known transaction")))
    = Throw (mkErr EError "known transaction").
Proof.
  intros c pl. split; [reflexivity|]. split; [reflexivity|].
  destruct (sendTransfer_classification pl 1 c 0 10 "replacement transaction underpriced"
              eq_refl eq_refl) as [Hy _].
  destruct (sendTransfer_classification pl 1 c 0 10 "known transaction" eq_refl eq_refl)
    as [_ [Hn _]].
  split; [apply Hy | apply Hn]; vm_compute; reflexivity.
Defined.

Lemma retry_converges_witness :
  let c := Sample.store (Sample.raw Sample.self Sample.other 0) in
  let pl := Sample.plugin c in
  let resps := [(10, NodeReject "known transaction");
                (10, NodeReject "replacement transaction underpriced"); (10, NodeAccept)] in
  snd (fulfillCondition pl 0 resps) = Done /\ count_writes (fst (fulfillCondition pl 0 resps)) = 3%nat.
Proof.
  intros c pl resps.
  assert (Hall : Forall is_conflict_text
                   ["known transaction"; "replacement transaction underpriced"]).
  { constructor; [right; vm_compute; reflexivity|].
    constructor; [left; vm_compute; reflexivity|constructor]. }
  destruct (retry_converges pl 1 c 0 10 _ eq_refl eq_refl Hall) as (A & B & _ & _).
  split; [exact A|exact B].
Defined.

Lemma retry_stops_on_other_error_witness :
  let c := Sample.store (Sample.raw Sample.self Sample.other 0) in
  let pl := Sample.plugin c in
  fulfillCondition pl 0 [(10, NodeReject "insufficient funds"); (10, NodeAccept)] =
    ([ATxCall OpFulfillTransfer (Some 1%nat) 0; ANetWrite OpFulfillTransfer 1 0],
     Failed (mkErr EError "insufficient funds")).
Proof.
  intros c pl.
  apply (retry_stops_on_other_error pl 1 c 0 10 "insufficient funds" [(10, NodeAccept)]
           eq_refl eq_refl).
  intros [H|H]; vm_compute in H; discriminate H.
Defined.

Lemma retry_unconnected_fails_fast_witness :
  let pl := Sample.unconnected (Sample.store (Sample.raw Sample.self Sample.other 0)) in
  p_web3 pl = None /\ p_extWeb3 pl = None /\
  exists e, e_class e = ETypeError /\
    fulfillCondition pl 0 [(10, NodeAccept)] = ([ATxCall OpFulfillTransfer None 0], Failed e).
Proof.
  intros pl. split; [reflexivity|]. split; [reflexivity|].
  exact (proj1 (retry_unconnected_fails_fast pl 0 (10, NodeAccept) [] eq_refl eq_refl)).
Defined.

Lemma connect_owned_once_witness :
  let c := Sample.store (Sample.raw Sample.self Sample.other 0) in
  let cs := fresh_conn (Sample.unconnected c) in
  p_extWeb3 (c_pl cs) = None /\ p_web3 (c_pl cs) = None /\
  snd (fst (connect cs c)) = [LNewWeb3 "ws://p1:8546"] /\
  connect (fst (fst (connect cs c))) c = (fst (fst (connect cs c)), [], []).
Proof.
  intros c cs. split; [reflexivity|]. split; [reflexivity|].
  pose proof (connect_owned_once cs c c eq_refl eq_refl) as H.
  destruct (connect cs c) as [[cs1 acts1] evs1].
  destruct H as (A & _ & _ & _ & _ & _ & G). split; [exact A|exact G].
Defined.

Lemma connect_external_repeats_witness :
  let c := Sample.store (Sample.raw Sample.self Sample.other 0) in
  let cs := setWeb3 (fresh_conn (Sample.unconnected c)) 7 in
  p_extWeb3 (c_pl cs) = Some 7%nat /\
  let '(cs', evs) := run_lifecycle cs (repeat (OpConnect c) 2) in
  evs = [mkEvent "connect" []; mkEvent "connect" []] /\ c_subscriptions cs' = 8%nat /\
  c_timers cs' = 0%nat.
Proof.
  intros c cs. split; [reflexivity|].
  destruct (connect_external_repeats cs 7 c 2 eq_refl ltac:(lia)) as [_ H].
  destruct (run_lifecycle cs (repeat (OpConnect c) 2)) as [cs' evs].
  destruct H as (E & S & T & _). split; [exact E|]. split; [exact S|exact T].
Defined.

Lemma disconnect_once_witness :
  let c := Sample.store (Sample.raw Sample.self Sample.other 0) in
  let cs := fresh_conn (Sample.plugin c) in
  let cs1 := fst (fst (disconnect cs)) in
  snd (disconnect cs) = [mkEvent "disconnect" []] /\ disconnect cs1 = (cs1, [], []) /\
  isConnected (c_pl cs1) = false /\
  fulfillCondition (c_pl cs1) 0 [(10, NodeAccept)] =
    ([ATxCall OpFulfillTransfer None 0],
     Failed (mkErr ETypeError "Cannot read properties of null (reading 'eth')")).
Proof.
  intros c cs cs1.
  pose proof (disconnect_once cs 1 c eq_refl eq_refl eq_refl) as H. subst cs1.
  destruct (disconnect cs) as [[cs1 acts1] evs1].
  destruct H as (_ & E & D & I & _ & _ & _ & F & _).
  split; [exact E|]. split; [exact D|]. split; [exact I|]. apply F.
Defined.


Lemma createTransfer_args_roundtrip_witness :
  let raw := Sample.raw Sample.other Sample.self 0 in
  let c := Sample.store raw in
  let pl := Sample.plugin c in
  exists t, getTransfer pl c Sample.uuid = Ret t /\
    createTransfer_args t =
      mkCreateArgs (Some "JPY-1") 1000
        "0x00112233445566778899aabbccddeeff00112233445566778899aabbccddeeff"
        "0xf55585e10c194588832d369cfa005640" "0x0102" (Some "deposit").
Proof.
  intros raw c pl.
  destruct (getTransfer pl c Sample.uuid) as [t|e] eqn:Ht; [|vm_compute in Ht; discriminate Ht].
  exists t. split; [reflexivity|].
  apply (createTransfer_args_roundtrip pl c Sample.uuid raw "JPY-1"
           "00112233445566778899aabbccddeeff00112233445566778899aabbccddeeff" "0102" 32 2 t);
    try reflexivity; try exact Ht.
  intros H. vm_compute in H. discriminate H.
Defined.

Lemma fulfill_notification_fulfillment_witness :
  let c := Sample.store (Sample.raw Sample.self Sample.other 1) in
  let pl := Sample.plugin c in
  exists evs, on_notification pl c (NFulfill (uuidToHex Sample.uuid) ("0x" ++ "00ff")) = Ret evs /\
    evs <> [] /\
    forall e a, In e evs -> nth_error (ev_args e) 1 = Some a ->
    exists v, a = AValue (Some v) /\ fulfillmentToHex v = "0x" ++ "00ff".
Proof.
  intros c pl.
  destruct (on_notification pl c (NFulfill (uuidToHex Sample.uuid) ("0x" ++ "00ff")))
    as [evs|e] eqn:Hrun; [|vm_compute in Hrun; discriminate Hrun].
  exists evs. split; [reflexivity|]. split.
  - intros H. subst evs. vm_compute in Hrun. discriminate Hrun.
  - exact (fulfill_notification_fulfillment pl c (uuidToHex Sample.uuid) "00ff" 2 evs
             eq_refl eq_refl Hrun).
Defined.

Lemma getRequests_roundtrip_witness :
  getRequests (Ret (map uuidToHex [Sample.uuid])) = Ret [Sample.uuid].
Proof.
  apply (getRequests_roundtrip [Sample.uuid] (mkErr EError "")).
  constructor; [vm_compute; reflexivity|constructor].
Defined.

Lemma getTransfer_keeps_id_witness :
  let c := Sample.store (Sample.raw zero_address zero_address 0) in
  exists t, getTransfer (Sample.plugin c) c Sample.uuid = Ret t /\ t_id t = Sample.uuid.
Proof.
  intros c.
  destruct (getTransfer (Sample.plugin c) c Sample.uuid) as [t|e] eqn:Ht;
    [|vm_compute in Ht; discriminate Ht].
  exists t. split; [reflexivity|].
  apply (getTransfer_keeps_id (Sample.plugin c) c Sample.uuid t); [vm_compute; reflexivity|exact Ht].
Defined.

Lemma not_found_notification_event_witness :
  let raw := Sample.raw zero_address zero_address 0 in
  let c := Sample.store raw in
  let pl := Sample.plugin c in
  exists t, t_state t = Some "" /\
    on_notification pl c (NUpdate (uuidToHex Sample.uuid)) = Ret [mkEvent "event_" [ATransfer t]].
Proof.
  intros raw c pl.
  destruct (not_found_notification_event pl c (uuidToHex Sample.uuid) "0x00" raw eq_refl eq_refl)
    as (t & _ & S & _ & U).
  - intros H. vm_compute in H. discriminate H.
  - exists t. split; [exact S|exact U].
Defined.

Lemma accountToHex_own_account_witness :
  let pl := Sample.plugin (Sample.store (Sample.raw Sample.self Sample.other 0)) in
  accountToHex (getAccount pl) Sample.prefix = Ret Sample.self /\
  accountToHex (getAccount pl ++ "." ++ "alice") Sample.prefix = Ret (Sample.self ++ ".") /\
  accountToHex (getAccount pl ++ "1") Sample.prefix =
    Throw (mkErr EError "account is not a 40-digit hex number").
Proof.
  intros pl.
  destruct (accountToHex_own_account pl "1111111111111111111111111111111111111111" "" "1"
              eq_refl (eq_refl true) eq_refl) as (A & _ & C).
  destruct (accountToHex_own_account pl "1111111111111111111111111111111111111111" "alice" "1"
              eq_refl (eq_refl true) eq_refl) as (_ & B & _).
  split; [exact A|]. split; [exact B|]. exact (C eq_refl).
Defined.

Lemma expiry_out_of_range_witness :
  let raw := {| r_from := Sample.other; r_to := Sample.self; r_amount := 5;
                r_condition := "0x00"; r_expires := 10000000000000; r_state := 0;
                r_direction := 0 |} in
  let c := Sample.store raw in
  let pl := Sample.plugin c in
  on_notification pl c (NUpdate (uuidToHex Sample.uuid)) =
    Throw (mkErr ERangeError "Invalid time value").
Proof.
  intros raw c pl.
  apply (expiry_out_of_range pl c (uuidToHex Sample.uuid) "0x00" "JPY-1" "0x0102" raw);
    try reflexivity.
  intros H. vm_compute in H. discriminate H.
Defined.
